(** * Tool-calling orchestration loop of the weather MCP client

    A shallow embedding of [weather-mcp-client/client.py]: the helpers
    [_schema_to_dict] and [_flatten_tool_content], and the method
    [MCPClient.process_query] which drives the conversation between a
    chat-completion endpoint and an MCP tool session.

    Conventions of the embedding.
    - A Python [str] is a [string] whose characters are code points below 256.
    - Python values produced by [json.loads] (and the dictionaries sent to the
      endpoint) are the inductive [PyVal]; a [dict] is an association list in
      insertion order.
    - The two collaborators (completion endpoint, tool session) are functions
      over an abstract [World]; every call to them may raise.
    - [json.loads] and [str] on parsed arguments are library functions of
      Python and are taken as parameters. *)

From Stdlib Require Import String Ascii List ZArith Bool Arith Lia SpecFloat.
Import ListNotations.
Local Open Scope string_scope.
Local Open Scope list_scope.

(** ** Python strings *)

Module PyStr.

(** Truth value of a [str]: [if s:] holds exactly for non-empty strings. *)
Definition truthy (s : string) : bool :=
  match s with
  | EmptyString => false
  | String _ _ => true
  end.

(** [str.isspace] on one character, restricted to code points below 256:
    TAB, LF, VT, FF, CR, the separators FS GS RS US, SPACE, NEL and NBSP. *)
Definition isspace (c : ascii) : bool :=
  let n := nat_of_ascii c in
  (((9 <=? n) && (n <=? 13)) || ((28 <=? n) && (n <=? 32))
   || (n =? 133) || (n =? 160))%nat.

Fixpoint lstrip (s : string) : string :=
  match s with
  | EmptyString => EmptyString
  | String c rest => if isspace c then lstrip rest else s
  end.

(** [rstrip] keeps a character when it is not white space or when something
    is kept after it. *)
Fixpoint rstrip (s : string) : string :=
  match s with
  | EmptyString => EmptyString
  | String c rest =>
      match rstrip rest with
      | EmptyString => if isspace c then EmptyString else String c EmptyString
      | kept => String c kept
      end
  end.

(** [s.strip()] *)
Definition strip (s : string) : string := rstrip (lstrip s).

(** [sep.join(parts)] *)
Definition join (sep : string) (parts : list string) : string :=
  String.concat sep parts.

(** [x or default] for an optional string: [None] and [""] are both falsy. *)
Definition or_else (x : option string) (default : string) : string :=
  match x with
  | Some s => if truthy s then s else default
  | None => default
  end.

Fixpoint all_space (s : string) : bool :=
  match s with
  | EmptyString => true
  | String c rest => isspace c && all_space rest
  end.

(** [s.startswith(p)] *)
Definition startswith (p s : string) : bool := String.prefix p s.

End PyStr.

(** ** Python values *)

(** The values [json.loads] can build.  A [float] is an IEEE 754 binary64
    number, kept as its sign, mantissa and exponent. *)
#[warnings="-register-all"]
Inductive PyVal : Type :=
| PyNone
| PyBool (b : bool)
| PyInt (n : Z)
| PyFloat (x : spec_float)
| PyStr (s : string)
| PyList (items : list PyVal)
| PyDict (entries : list (string * PyVal)).

(** [d.get(k)] on the entries of a dictionary. *)
Fixpoint dict_get (k : string) (entries : list (string * PyVal)) : option PyVal :=
  match entries with
  | [] => None
  | (k', v) :: rest => if String.eqb k k' then Some v else dict_get k rest
  end.

(** ** Tool catalog adapter *)

(** What [getattr(obj, name, None)] finds: nothing, a plain value, or a
    callable; for a callable we record what calling it returns. *)
Inductive Attr : Type :=
| AttrMissing
| AttrValue (v : PyVal)
| AttrCallable (result : PyVal).

(** The values [tool.inputSchema] can take, as far as [_schema_to_dict]
    probes them: [None], a [dict], or any other object, described by its
    [model_dump] and [dict] attributes and by its [__dict__] when it has one. *)
Inductive Schema : Type :=
| SchemaNone
| SchemaDict (entries : list (string * PyVal))
| SchemaObject (model_dump : Attr) (as_dict : Attr)
               (vars : option (list (string * PyVal))).

Definition empty_parameters : PyVal :=
  PyDict [("type", PyStr "object"); ("properties", PyDict [])].

(** [callable(getattr(schema, name, None))] together with the call. *)
Definition call_if_callable (a : Attr) : option PyVal :=
  match a with
  | AttrCallable result => Some result
  | AttrValue _ | AttrMissing => None
  end.

Definition _schema_to_dict (schema : Schema) : PyVal :=
  match schema with
  | SchemaNone => empty_parameters
  | SchemaDict entries => PyDict entries
  | SchemaObject model_dump as_dict vars =>
      match call_if_callable model_dump with
      | Some dumped => dumped
      | None =>
          match call_if_callable as_dict with
          | Some dumped => dumped
          | None =>
              match vars with
              | Some attrs =>
                  PyDict (filter (fun kv => negb (PyStr.startswith "_" (fst kv))) attrs)
              | None => empty_parameters
              end
          end
      end
  end.

(** One tool as [session.list_tools()] reports it. *)
Record Tool : Type := {
  tool_name : string;
  tool_description : option string;
  inputSchema : Schema
}.

(** The dictionaries of [available_tools]:
    [{"type": "function", "function": {"name", "description", "parameters"}}]. *)
Record FunctionDecl : Type := {
  decl_name : string;
  decl_description : string;
  decl_parameters : PyVal
}.

Record ToolDecl : Type := {
  decl_type : string;
  decl_function : FunctionDecl
}.

Definition declare (tool : Tool) : ToolDecl :=
  {| decl_type := "function";
     decl_function :=
       {| decl_name := tool_name tool;
          decl_description := PyStr.or_else (tool_description tool) EmptyString;
          decl_parameters := _schema_to_dict (inputSchema tool) |} |}.

(** The list comprehension that builds [available_tools]. *)
Definition available_tools (tools : list Tool) : list ToolDecl :=
  map declare tools.

(** ** Flattening tool results *)

(** One item of a tool result.  An object item is described by its
    attributes whose value is a string (an attribute that is missing or
    [None] is left out); a [dict] item by its string-valued entries.  Both
    carry what [str(item)] prints. *)
Inductive ContentItem : Type :=
| ObjectItem (attrs : list (string * string)) (printed : string)
| DictItem (entries : list (string * string)) (printed : string).

Fixpoint lookup (k : string) (kvs : list (string * string)) : option string :=
  match kvs with
  | [] => None
  | (k', v) :: rest => if String.eqb k k' then Some v else lookup k rest
  end.

(** [getattr(item, name, None)]: a [dict] has no such attribute. *)
Definition getattr (item : ContentItem) (name : string) : option string :=
  match item with
  | ObjectItem attrs _ => lookup name attrs
  | DictItem _ _ => None
  end.

(** [item.get(name)] guarded by [isinstance(item, dict)]. *)
Definition get_if_dict (item : ContentItem) (name : string) : option string :=
  match item with
  | ObjectItem _ _ => None
  | DictItem entries _ => lookup name entries
  end.

(** The probe used twice in the loop body:
    [v = getattr(item, name, None)], then
    [if v is None and isinstance(item, dict): v = item.get(name)]. *)
Definition probe (item : ContentItem) (name : string) : option string :=
  match getattr item name with
  | Some v => Some v
  | None => get_if_dict item name
  end.

Definition str_of_item (item : ContentItem) : string :=
  match item with
  | ObjectItem _ printed => printed
  | DictItem _ printed => printed
  end.

Definition is_text_type (item_type : option string) : bool :=
  match item_type with
  | Some t => String.eqb t "text"
  | None => false
  end.

(** Body of [for item in content], threading the list [parts]. *)
Definition flatten_item (parts : list string) (item : ContentItem) : list string :=
  let item_type := probe item "type" in
  if is_text_type item_type then
    match probe item "text" with
    | Some text => if PyStr.truthy text then parts ++ [text] else parts
    | None => parts
    end
  else parts ++ [str_of_item item].

Definition newline : string := String (ascii_of_nat 10) EmptyString.

(** [content] is [getattr(result, "content", None)]. *)
Definition _flatten_tool_content (content : option (list ContentItem)) : string :=
  match content with
  | None => EmptyString
  | Some [] => EmptyString
  | Some items =>
      let parts := fold_left flatten_item items [] in
      PyStr.strip (PyStr.join newline (filter PyStr.truthy parts))
  end.

(** What one item contributes to [parts]. *)
Definition part_of (item : ContentItem) : list string :=
  if is_text_type (probe item "type") then
    match probe item "text" with
    | Some text => if PyStr.truthy text then [text] else []
    | None => []
    end
  else [str_of_item item].

(** The flattening as the specification words it, for comparison with
    [_flatten_tool_content]: the text of every item of kind text, and the
    printed form of every other item, joined by newlines in order. *)
Definition spec_piece (item : ContentItem) : string :=
  if is_text_type (probe item "type") then
    match probe item "text" with
    | Some text => text
    | None => EmptyString
    end
  else str_of_item item.

Definition spec_flatten (items : list ContentItem) : string :=
  PyStr.join newline (map spec_piece items).

(** A valid object schema as the specification means it: a dictionary whose
    ["type"] is ["object"].  Used only to compare with [_schema_to_dict]. *)
Definition is_object_schema (schema : Schema) : bool :=
  match schema with
  | SchemaDict entries =>
      match dict_get "type" entries with
      | Some (PyStr t) => String.eqb t "object"
      | _ => false
      end
  | _ => false
  end.

(** The schemas [_schema_to_dict] finds nothing in: [None], or an object
    that has no callable [model_dump], no callable [dict] and no [__dict__]. *)
Definition unreadable (schema : Schema) : bool :=
  match schema with
  | SchemaNone => true
  | SchemaDict _ => false
  | SchemaObject model_dump as_dict vars =>
      match call_if_callable model_dump, call_if_callable as_dict, vars with
      | None, None, None => true
      | _, _, _ => false
      end
  end.

(** ** Messages exchanged with the completion endpoint *)

Record Function : Type := {
  fn_name : string;
  fn_arguments : option string
}.

(** A tool call as the endpoint returns it. *)
Record ToolCall : Type := {
  call_id : string;
  call_type : string;
  call_function : Function
}.

Record ChatCompletionMessage : Type := {
  msg_role : string;
  msg_content : option string;
  msg_tool_calls : option (list ToolCall)
}.

Record Choice : Type := { choice_message : ChatCompletionMessage }.

Record ChatCompletion : Type := { choices : list Choice }.

(** Entry of ["tool_calls"] in the assistant message of the transcript. *)
Record ToolCallEntry : Type := {
  entry_id : string;
  entry_type : string;
  entry_name : string;
  entry_arguments : option string
}.

(** The dictionaries of the list [messages], by their ["role"]. *)
Inductive Message : Type :=
| UserMessage (content : string)
| AssistantMessage (content : string) (tool_calls : list ToolCallEntry)
| ToolMessage (tool_call_id : string) (name : string) (content : string).

(** [request_kwargs]; [tools] and [tool_choice] are set together or not at all. *)
Record Request : Type := {
  req_model : string;
  req_messages : list Message;
  req_tools : option (list ToolDecl);
  req_tool_choice : option string
}.

(** What [session.call_tool] returns. *)
Record CallToolResult : Type := {
  content : option (list ContentItem);
  isError : bool
}.

Inductive Exn : Type :=
| RuntimeError (msg : string)
| ValueError (msg : string)
| IndexError
| Foreign (what : string).

(** Calls that reach a collaborator, in the order they are made. *)
Inductive Event : Type :=
| EvListTools
| EvCompletion (request : Request)
| EvCallTool (name : string) (arguments : PyVal).

Definition is_call_tool (ev : Event) : bool :=
  match ev with
  | EvCallTool _ _ => true
  | _ => false
  end.

Definition is_completion (ev : Event) : bool :=
  match ev with
  | EvCompletion _ => true
  | _ => false
  end.

(** The environment of a run: the state [world] of everything outside the
    client, and the calls made so far. *)
Record Env (World : Type) : Type := { world : World; trace : list Event }.

Arguments world {World} _.
Arguments trace {World} _.

(** The fields of [MCPClient] that [process_query] reads. *)
Record MCPClient (ClientSession : Type) : Type := {
  session : option ClientSession;
  model : string
}.

Arguments session {ClientSession} _.
Arguments model {ClientSession} _.

(** Local variables of [process_query] that live across turns. *)
Record Locals : Type := {
  messages : list Message;
  final_chunks : list string;
  turn_index : nat
}.

(** ** Strings of the shell and of the connection *)

(** [str.lower] on one character, for code points below 256: the letters
    A to Z and the capital letters of Latin-1 (192 to 222, the multiplication
    sign 215 apart) move 32 places up; nothing else changes. *)
Definition lower_char (c : ascii) : ascii :=
  let n := nat_of_ascii c in
  if (((65 <=? n) && (n <=? 90))
      || ((192 <=? n) && (n <=? 222) && negb (n =? 215)))%nat
  then ascii_of_nat (n + 32)
  else c.

(** [s.lower()] *)
Fixpoint str_lower (s : string) : string :=
  match s with
  | EmptyString => EmptyString
  | String c rest => String (lower_char c) (str_lower rest)
  end.

(** [s.endswith(suffix)]: some tail of [s] is [suffix]. *)
Fixpoint str_endswith (suffix s : string) : bool :=
  if String.eqb suffix s then true
  else
    match s with
    | EmptyString => false
    | String _ rest => str_endswith suffix rest
    end.

(** [query.lower() in {"quit", "exit"}] *)
Definition is_quit (query : string) : bool :=
  let lowered := str_lower query in
  String.eqb lowered "quit" || String.eqb lowered "exit".

(** What [chat_loop] logs for one query: the response, the note that there
    was none, or the exception it caught. *)
Inductive ShellLine : Type :=
| Responded (response : string)
| NoResponse
| Failed (e : Exn).

(** [StdioServerParameters(command=..., args=[...], env=None)] *)
Record StdioServerParameters : Type := {
  command : string;
  args : list string
}.

(** The checks of [_connect_stdio_server] that precede the launch. *)
Definition stdio_parameters (server_script_path : string)
  : Exn + StdioServerParameters :=
  let is_python := str_endswith ".py" server_script_path in
  let is_js := str_endswith ".js" server_script_path in
  if negb (is_python || is_js)
  then inl (ValueError "Server script must be a .py or .js file")
  else inr {| command := if is_python then "python" else "node";
              args := [server_script_path] |}.

(** [server_target.startswith(("http://", "https://"))] *)
Definition is_http_target (server_target : string) : bool :=
  PyStr.startswith "http://" server_target
  || PyStr.startswith "https://" server_target.

Definition header_error : Exn :=
  ValueError "MCP_HTTP_HEADERS must be JSON object of header names and values".

(** The lines [chat_loop] turns into queries: trimmed, the blank ones left
    out, up to the first [quit] or [exit]. *)
Fixpoint queries_of (lines : list string) : list string :=
  match lines with
  | [] => []
  | line :: rest =>
      let query := PyStr.strip line in
      if is_quit query then []
      else if PyStr.truthy query then query :: queries_of rest
      else queries_of rest
  end.

Definition is_list_tools (ev : Event) : bool :=
  match ev with
  | EvListTools => true
  | _ => false
  end.

(** ** Scripted collaborators

    A world in which the endpoint and the session answer from a script.  It
    serves to run the client on concrete conversations. *)

Module Mock.

Record Script : Type := {
  catalog : Exn + list Tool;
  replies : list (Exn + ChatCompletion);
  outcomes : list (Exn + CallToolResult)
}.

Definition list_tools (_ : unit) (w : Script) : (Exn + list Tool) * Script :=
  (catalog w, w).

Definition create (_ : Request) (w : Script) : (Exn + ChatCompletion) * Script :=
  match replies w with
  | [] => (inl (Foreign "no reply scripted"), w)
  | reply :: rest =>
      (reply, {| catalog := catalog w; replies := rest; outcomes := outcomes w |})
  end.

Definition call_tool (_ : unit) (_ : string) (_ : PyVal) (w : Script)
  : (Exn + CallToolResult) * Script :=
  match outcomes w with
  | [] => (inl (Foreign "no outcome scripted"), w)
  | outcome :: rest =>
      (outcome, {| catalog := catalog w; replies := replies w; outcomes := rest |})
  end.

(** A reader for the three argument strings the scripts use. *)
Definition json_loads (s : string) : string + PyVal :=
  if String.eqb s "{}" then inr (PyDict [])
  else if String.eqb s "[3, 4]" then inr (PyList [PyInt 3; PyInt 4])
  else if String.eqb s "null" then inr PyNone
  else inl "Expecting value: line 1 column 1 (char 0)".

Definition py_str (v : PyVal) : string :=
  match v with
  | PyDict [] => "{}"
  | PyList [PyInt 3; PyInt 4] => "[3, 4]"
  | PyNone => "None"
  | _ => "<value>"
  end.

Definition reply (text : option string) (calls : option (list ToolCall))
  : Exn + ChatCompletion :=
  inr {| choices := [ {| choice_message :=
           {| msg_role := "assistant"; msg_content := text;
              msg_tool_calls := calls |} |} ] |}.

Definition call (id name : string) (arguments : option string) : ToolCall :=
  {| call_id := id; call_type := "function";
     call_function := {| fn_name := name; fn_arguments := arguments |} |}.

Definition text_item (text : string) : ContentItem :=
  ObjectItem [("type", "text"); ("text", text)] "TextContent".

Definition returns (items : list ContentItem) (failed : bool)
  : Exn + CallToolResult :=
  inr {| content := Some items; isError := failed |}.

Definition add_numbers : Tool :=
  {| tool_name := "add_numbers";
     tool_description := Some "Add numbers";
     inputSchema := SchemaDict [("type", PyStr "object")] |}.

(** A tool whose schema is a dictionary, but not that of an object. *)
Definition echo : Tool :=
  {| tool_name := "echo";
     tool_description := None;
     inputSchema := SchemaDict [("type", PyStr "string")] |}.

(** A tool listed without any schema. *)
Definition bare : Tool :=
  {| tool_name := "ping";
     tool_description := Some "Ping the server";
     inputSchema := SchemaNone |}.

Definition client : MCPClient unit :=
  {| session := Some tt; model := "llama3.1:8b" |}.

Definition fresh (w : Script) : Env Script := {| world := w; trace := [] |}.

(** The endpoint answers with text only. *)
Definition text_only : Script :=
  {| catalog := inr [add_numbers];
     replies := [reply (Some "4") None];
     outcomes := [] |}.

(** Two calls in one turn, then a closing answer. *)
Definition two_calls : Script :=
  {| catalog := inr [add_numbers];
     replies :=
       [reply (Some "Let me add.")
              (Some [call "call_1" "add_numbers" (Some "[3, 4]");
                     call "call_2" "add_numbers" None]);
        reply (Some "7") (Some [])];
     outcomes :=
       [returns [text_item "7"] false;
        returns [text_item "unknown tool"] true] |}.

(** The second call of the turn carries arguments that do not parse. *)
Definition malformed : Script :=
  {| catalog := inr [add_numbers];
     replies :=
       [reply None
              (Some [call "call_1" "add_numbers" (Some "[3, 4]");
                     call "call_2" "add_numbers" (Some "{not json")])];
     outcomes := [returns [text_item "7"] false; returns [text_item "8"] false] |}.

(** The only call of the first turn carries the empty string as arguments. *)
Definition blank_arguments : Script :=
  {| catalog := inr [add_numbers];
     replies :=
       [reply None (Some [call "call_1" "add_numbers" (Some EmptyString)]);
        reply (Some "done") None];
     outcomes := [returns [text_item "0"] false] |}.

(** The session drops while the tool runs. *)
Definition dropped : Script :=
  {| catalog := inr [add_numbers];
     replies :=
       [reply None (Some [call "call_1" "add_numbers" (Some "{}")]);
        reply (Some "done") None];
     outcomes := [inl (Foreign "connection closed")] |}.

(** A client that never connected. *)
Definition offline : MCPClient unit :=
  {| session := None; model := "llama3.1:8b" |}.

(** The completion endpoint cannot be reached. *)
Definition endpoint_down : Script :=
  {| catalog := inr [add_numbers];
     replies := [inl (Foreign "503 Service Unavailable")];
     outcomes := [] |}.

(** Two text-only answers, for a shell that is asked two questions. *)
Definition two_answers : Script :=
  {| catalog := inr [add_numbers];
     replies := [reply (Some "4") None; reply (Some "6") None];
     outcomes := [] |}.

(** A process environment without [MCP_HTTP_HEADERS], and one in which it
    holds a JSON list. *)
Definition getenv_unset (_ : string) : option string := None.

Definition getenv_list (name : string) : option string :=
  if String.eqb name "MCP_HTTP_HEADERS" then Some "[3, 4]" else None.

(** Transports and sessions that always open. *)
Definition stdio_client (_ : StdioServerParameters) (w : Script)
  : (Exn + unit) * Script := (inr tt, w).

Definition streamablehttp_client (_ : string)
           (_ : option (list (string * string))) (w : Script)
  : (Exn + unit) * Script := (inr tt, w).

Definition client_session (_ : unit) (w : Script) : (Exn + unit) * Script :=
  (inr tt, w).

Definition initialize (_ : unit) (w : Script) : (Exn + unit) * Script :=
  (inr tt, w).


End Mock.

(** An endpoint that asks for the same tool on every turn, and a session
    that always answers. *)
Module Chatty.

Definition list_tools (_ : unit) (w : unit) : (Exn + list Tool) * unit :=
  (inr [], w).

Definition create (_ : Request) (w : unit) : (Exn + ChatCompletion) * unit :=
  (Mock.reply None (Some [Mock.call "call_0" "get_alerts" (Some "{}")]), w).

Definition call_tool (_ : unit) (_ : string) (_ : PyVal) (w : unit)
  : (Exn + CallToolResult) * unit :=
  (Mock.returns [Mock.text_item "No active alerts"] false, w).

Definition fresh : Env unit := {| world := tt; trace := [] |}.

End Chatty.

(** ** A monad for the effects of [process_query] *)

Inductive Res (A : Type) : Type :=
| Ok (a : A)
| Exc (e : Exn)
| OutOfFuel.

Arguments Ok {A} a.
Arguments Exc {A} e.
Arguments OutOfFuel {A}.

Section Orchestration.

Context {World ClientSession : Type}.

(** [json.loads]: [inl msg] is a [JSONDecodeError] printing as [msg]. *)
Variable json_loads : string -> string + PyVal.
(** [str] of the parsed arguments, as the f-string renders them. *)
Variable py_str : PyVal -> string.

Variable list_tools : ClientSession -> World -> (Exn + list Tool) * World.
Variable call_tool :
  ClientSession -> string -> PyVal -> World -> (Exn + CallToolResult) * World.
(** [self.llm.chat.completions.create] applied to [request_kwargs]. *)
Variable create : Request -> World -> (Exn + ChatCompletion) * World.

Definition Prog (A : Type) : Type := Env World -> Res A * Env World.

Definition ret {A} (a : A) : Prog A := fun env => (Ok a, env).

Definition raise {A} (e : Exn) : Prog A := fun env => (Exc e, env).

Definition bind {A B} (m : Prog A) (k : A -> Prog B) : Prog B :=
  fun env =>
    match m env with
    | (Ok a, env') => k a env'
    | (Exc e, env') => (Exc e, env')
    | (OutOfFuel, env') => (OutOfFuel, env')
    end.

(** A call to a collaborator: logged, then its answer or its exception. *)
Definition perform {A} (ev : Event) (op : World -> (Exn + A) * World) : Prog A :=
  fun env =>
    let (answer, w) := op (world env) in
    let env' := {| world := w; trace := trace env ++ [ev] |} in
    match answer with
    | inl e => (Exc e, env')
    | inr a => (Ok a, env')
    end.

Notation "x <- m ;; k" := (bind m (fun x => k))
  (at level 61, m at next level, right associativity).

(** ** The loop *)

Definition tool_call_entry (tool_call : ToolCall) : ToolCallEntry :=
  {| entry_id := call_id tool_call;
     entry_type := call_type tool_call;
     entry_name := fn_name (call_function tool_call);
     entry_arguments := fn_arguments (call_function tool_call) |}.

(** The arguments handed to [json.loads]: [arguments or "{}"]. *)
Definition raw_arguments (tool_call : ToolCall) : string :=
  PyStr.or_else (fn_arguments (call_function tool_call)) "{}".

Definition parse_error (tool_name exc : string) : Exn :=
  ValueError ("Failed to parse arguments for tool " ++ tool_name ++ ": " ++ exc).

Definition summary_of (tool_name : string) (arguments : PyVal) : string :=
  "[Tool " ++ tool_name ++ " called with args " ++ py_str arguments ++ "]".

(** The message appended for a tool call, given the flattened output. *)
Definition tool_message (tool_call : ToolCall) (tool_output : string) : Message :=
  ToolMessage (call_id tool_call) (fn_name (call_function tool_call))
              (PyStr.or_else (Some tool_output) "(no output)").

(** What the loop body does with the result of a call: flatten it, extend
    [final_chunks] and append the tool message to [messages]. *)
Definition fold_result (loc : Locals) (tool_call : ToolCall)
           (arguments : PyVal) (result : CallToolResult) : Locals :=
  let tool_name := fn_name (call_function tool_call) in
  let tool_output := _flatten_tool_content (content result) in
  let summary := summary_of tool_name arguments in
  let chunks := final_chunks loc ++ [summary] in
  let chunks :=
    if PyStr.truthy tool_output then chunks ++ [tool_output] else chunks in
  {| messages := messages loc ++ [tool_message tool_call tool_output];
     final_chunks := chunks;
     turn_index := turn_index loc |}.

(** Body of the second [for tool_call in tool_calls] loop. *)
Definition run_tool_call (sess : ClientSession) (loc : Locals)
           (tool_call : ToolCall) : Prog Locals :=
  let tool_name := fn_name (call_function tool_call) in
  match json_loads (raw_arguments tool_call) with
  | inl exc => raise (parse_error tool_name exc)
  | inr arguments =>
      result <- perform (EvCallTool tool_name arguments)
                        (call_tool sess tool_name arguments) ;;
      ret (fold_result loc tool_call arguments result)
  end.

Fixpoint run_tool_calls (sess : ClientSession) (tool_calls : list ToolCall)
         (loc : Locals) : Prog Locals :=
  match tool_calls with
  | [] => ret loc
  | tool_call :: rest =>
      loc' <- run_tool_call sess loc tool_call ;;
      run_tool_calls sess rest loc'
  end.

Definition build_request (self : MCPClient ClientSession)
           (tools : list ToolDecl) (msgs : list Message) : Request :=
  match tools with
  | [] => {| req_model := model self; req_messages := msgs;
             req_tools := None; req_tool_choice := None |}
  | _ :: _ => {| req_model := model self; req_messages := msgs;
                 req_tools := Some tools; req_tool_choice := Some "auto" |}
  end.

(** [completion.choices[0].message] *)
Definition first_message (completion : ChatCompletion)
  : Prog ChatCompletionMessage :=
  match choices completion with
  | [] => raise IndexError
  | choice :: _ => ret (choice_message choice)
  end.

(** [message.tool_calls or []] *)
Definition requested_calls (message : ChatCompletionMessage) : list ToolCall :=
  match msg_tool_calls message with
  | Some calls => calls
  | None => []
  end.

(** The first [for tool_call in tool_calls] loop, which fills
    [assistant_message["tool_calls"]] by successive appends. *)
Definition assistant_message (content_text : string)
           (tool_calls : list ToolCall) : Message :=
  AssistantMessage content_text
    (fold_left (fun acc tool_call => acc ++ [tool_call_entry tool_call])
               tool_calls []).

(** How one pass through the body of [while True] ends. *)
Inductive LoopCtl : Type :=
| Break (loc : Locals)
| Continue (loc : Locals).

(** [if content_text.strip(): final_chunks.append(content_text.strip())] *)
Definition note_text (loc : Locals) (content_text : string) : Locals :=
  let chunks :=
    if PyStr.truthy (PyStr.strip content_text)
    then final_chunks loc ++ [PyStr.strip content_text]
    else final_chunks loc in
  {| messages := messages loc; final_chunks := chunks;
     turn_index := turn_index loc |}.

(** First half of the loop body, up to [tool_calls = message.tool_calls or []]:
    ask the endpoint and note its text in [final_chunks].  Yields
    [content_text], [tool_calls] and the locals. *)
Definition ask_model (self : MCPClient ClientSession) (tools : list ToolDecl)
           (loc : Locals) : Prog (string * list ToolCall * Locals) :=
  let request := build_request self tools (messages loc) in
  completion <- perform (EvCompletion request) (create request) ;;
  message <- first_message completion ;;
  let content_text := PyStr.or_else (msg_content message) EmptyString in
  ret (content_text, requested_calls message, note_text loc content_text).

(** [messages.append(assistant_message)] *)
Definition record_assistant (loc : Locals) (content_text : string)
           (tool_calls : list ToolCall) : Locals :=
  {| messages := messages loc ++ [assistant_message content_text tool_calls];
     final_chunks := final_chunks loc;
     turn_index := turn_index loc |}.

(** [turn_index += 1] *)
Definition next_turn (loc : Locals) : Locals :=
  {| messages := messages loc;
     final_chunks := final_chunks loc;
     turn_index := turn_index loc + 1 |}.

Definition turn (self : MCPClient ClientSession) (sess : ClientSession)
           (tools : list ToolDecl) (loc : Locals) : Prog LoopCtl :=
  asked <- ask_model self tools loc ;;
  let '(content_text, tool_calls, loc1) := asked in
  match tool_calls with
  | [] => ret (Break loc1)
  | _ :: _ =>
      loc' <- run_tool_calls sess tool_calls
                (record_assistant loc1 content_text tool_calls) ;;
      ret (Continue (next_turn loc'))
  end.

(** [while True], unrolled at most [fuel] times. *)
Fixpoint turn_loop (fuel : nat) (self : MCPClient ClientSession)
         (sess : ClientSession) (tools : list ToolDecl) (loc : Locals)
  : Prog Locals :=
  match fuel with
  | O => fun env => (OutOfFuel, env)
  | S fuel' =>
      ctl <- turn self sess tools loc ;;
      match ctl with
      | Break loc' => ret loc'
      | Continue loc' => turn_loop fuel' self sess tools loc'
      end
  end.

Definition initial_locals (query : string) : Locals :=
  {| messages := [UserMessage query]; final_chunks := []; turn_index := 1 |}.

Definition result_text (chunks : list string) : string :=
  PyStr.join newline (filter PyStr.truthy chunks).

Definition process_query (fuel : nat) (self : MCPClient ClientSession)
           (query : string) : Prog string :=
  match session self with
  | None => raise (RuntimeError "Not connected to any MCP server.")
  | Some sess =>
      list_response <- perform EvListTools (list_tools sess) ;;
      let tools := available_tools list_response in
      loc <- turn_loop fuel self sess tools (initial_locals query) ;;
      ret (result_text (final_chunks loc))
  end.

(** The environment once [ev] was performed and left the world as [w]. *)
Definition logged (env : Env World) (ev : Event) (w : World) : Env World :=
  {| world := w; trace := trace env ++ [ev] |}.

Definition invocation (tool_call : ToolCall) (arguments : PyVal) : Event :=
  EvCallTool (fn_name (call_function tool_call)) arguments.

(** A completed call: the tool call, its parsed arguments and its result. *)
Definition Done : Type := (ToolCall * (PyVal * CallToolResult))%type.

Definition absorb (loc : Locals) (done : Done) : Locals :=
  fold_result loc (fst done) (fst (snd done)) (snd (snd done)).

Definition invocation_of (done : Done) : Event :=
  invocation (fst done) (fst (snd done)).

Definition message_of (done : Done) : Message :=
  tool_message (fst done) (_flatten_tool_content (content (snd (snd done)))).

(** The arguments of a completed call are the parse of what the model sent. *)
Definition parsed (tool_call : ToolCall) (out : PyVal * CallToolResult) : Prop :=
  json_loads (raw_arguments tool_call) = inr (fst out).

(** The ["tools"] entry of a request built for a given declaration list. *)
Definition tools_entry (tools : list ToolDecl) : option (list ToolDecl) :=
  match tools with
  | [] => None
  | _ :: _ => Some tools
  end.

Definition carries (tools : list ToolDecl) (ev : Event) : Prop :=
  match ev with
  | EvCompletion request => req_tools request = tools_entry tools
  | _ => True
  end.

(** The last step of [process_query] applied to the outcome of the loop. *)
Definition finish (r : Res Locals * Env World) : Res string * Env World :=
  match r with
  | (Ok loc, env) => (Ok (result_text (final_chunks loc)), env)
  | (Exc e, env) => (Exc e, env)
  | (OutOfFuel, env) => (OutOfFuel, env)
  end.

(** ** Points of an execution

    The functions below run the same code up to a given point.  They name
    the states a statement about "every turn" or "every tool call of
    [process_query]" ranges over. *)

(** Entry of the loop: the session is connected and the catalog was listed. *)
Definition loop_entry (self : MCPClient ClientSession) (env0 : Env World)
  : option (ClientSession * list ToolDecl * Env World) :=
  match session self with
  | None => None
  | Some sess =>
      match perform EvListTools (list_tools sess) env0 with
      | (Ok list_response, env) => Some (sess, available_tools list_response, env)
      | _ => None
      end
  end.

(** State after [n] turns that all went on to a next turn. *)
Fixpoint after_turns (n : nat) (self : MCPClient ClientSession)
         (sess : ClientSession) (tools : list ToolDecl) (loc : Locals)
         (env : Env World)
  : option (Locals * Env World) :=
  match n with
  | O => Some (loc, env)
  | S n' =>
      match turn self sess tools loc env with
      | (Ok (Continue loc'), env') => after_turns n' self sess tools loc' env'
      | _ => None
      end
  end.

(** [process_query], started in [env0], is about to begin turn number
    [n] (counting from 0) with these locals, in this environment. *)
Definition at_turn (self : MCPClient ClientSession) (query : string)
           (env0 : Env World) (n : nat)
  : option (ClientSession * list ToolDecl * Locals * Env World) :=
  match loop_entry self env0 with
  | None => None
  | Some (sess, tools, env) =>
      match after_turns n self sess tools (initial_locals query) env with
      | Some (loc, env') => Some (sess, tools, loc, env')
      | None => None
      end
  end.

(** In turn [n] the endpoint requested [tool_calls]; the assistant message
    is recorded and the first [k] calls have been executed. *)
Definition in_turn (self : MCPClient ClientSession) (query : string)
           (env0 : Env World) (n k : nat)
  : option (ClientSession * list ToolCall * Locals * Env World) :=
  match at_turn self query env0 n with
  | None => None
  | Some (sess, tools, loc, env) =>
      match ask_model self tools loc env with
      | (Ok (content_text, tool_calls, loc1), env1) =>
          match run_tool_calls sess (firstn k tool_calls)
                  (record_assistant loc1 content_text tool_calls) env1 with
          | (Ok loc2, env2) => Some (sess, tool_calls, loc2, env2)
          | _ => None
          end
      | _ => None
      end
  end.

(** ** Shape of the transcript *)

(** [m] is the tool message that answers [tool_call]: same [id], same tool
    name, and a content that is neither empty nor padded with white space. *)
Definition answers (tool_call : ToolCall) (m : Message) : Prop :=
  match m with
  | ToolMessage tool_call_id name output =>
      tool_call_id = call_id tool_call /\
      name = fn_name (call_function tool_call) /\
      PyStr.truthy output = true /\
      PyStr.strip output = output
  | _ => False
  end.

(** What a completed turn appends: the assistant message that lists the
    calls, then one answer per call, in the order of the calls. *)
Inductive turn_block : list Message -> Prop :=
| turn_block_intro content_text tool_calls replies :
    tool_calls <> [] ->
    Forall2 answers tool_calls replies ->
    turn_block
      (AssistantMessage content_text (map tool_call_entry tool_calls) :: replies).

(** A transcript made of the user's query followed by completed turns. *)
Inductive well_formed (query : string) : list Message -> Prop :=
| well_formed_query : well_formed query [UserMessage query]
| well_formed_turn msgs added :
    well_formed query msgs ->
    turn_block added ->
    well_formed query (msgs ++ added).

(** A completion request as [process_query] builds them for [query]. *)
Definition proper_request (self : MCPClient ClientSession)
           (tools : list ToolDecl) (query : string) (ev : Event) : Prop :=
  match ev with
  | EvListTools => False
  | EvCompletion request =>
      exists msgs,
        request = build_request self tools msgs /\ well_formed query msgs
  | EvCallTool _ _ => True
  end.

(** ** The interactive shell *)

(** [if response: ... else: ...] of [chat_loop]. *)
Definition report (response : string) : ShellLine :=
  if PyStr.truthy response then Responded response else NoResponse.

(** The [try] statement of [chat_loop]: every exception of the query is
    caught and logged. *)
Definition attempt (fuel : nat) (self : MCPClient ClientSession)
           (query : string) : Prog ShellLine :=
  fun env =>
    match process_query fuel self query env with
    | (Ok response, env') => (Ok (report response), env')
    | (Exc e, env') => (Ok (Failed e), env')
    | (OutOfFuel, env') => (OutOfFuel, env')
    end.

(** [chat_loop] on the lines that standard input holds; [input()] raises
    [EOFError] once they are used up.  Each query may take [fuel] turns.
    The result is what the shell logged, in order. *)
Fixpoint chat_loop (fuel : nat) (self : MCPClient ClientSession)
         (lines : list string) : Prog (list ShellLine) :=
  match lines with
  | [] => ret []
  | line :: rest =>
      let query := PyStr.strip line in
      if is_quit query then ret []
      else if PyStr.truthy query then
        shown <- attempt fuel self query ;;
        later <- chat_loop fuel self rest ;;
        ret (shown :: later)
      else chat_loop fuel self rest
  end.

(** ** Connecting to a server *)

Section Connection.

Context {Transport : Type}.

(** [os.getenv] *)
Variable getenv : string -> option string.
(** Entering [stdio_client(server_params)]. *)
Variable stdio_client :
  StdioServerParameters -> World -> (Exn + Transport) * World.
(** Entering [streamablehttp_client(server_url, headers=headers)]. *)
Variable streamablehttp_client :
  string -> option (list (string * string)) -> World -> (Exn + Transport) * World.
(** Entering [ClientSession(read, write)]. *)
Variable client_session : Transport -> World -> (Exn + ClientSession) * World.
(** [session.initialize()] *)
Variable initialize : ClientSession -> World -> (Exn + unit) * World.

(** The headers [_connect_http_server] reads from [MCP_HTTP_HEADERS]. *)
Definition http_headers : Exn + option (list (string * string)) :=
  match getenv "MCP_HTTP_HEADERS" with
  | None => inr None
  | Some headers_env =>
      if PyStr.truthy headers_env then
        match json_loads headers_env with
        | inl _ => inl header_error
        | inr (PyDict entries) =>
            inr (Some (map (fun kv => (fst kv, py_str (snd kv))) entries))
        | inr _ => inl header_error
        end
      else inr None
  end.

Definition set_world (env : Env World) (w : World) : Env World :=
  {| world := w; trace := trace env |}.

Definition with_session (self : MCPClient ClientSession) (sess : ClientSession)
  : MCPClient ClientSession :=
  {| session := Some sess; model := model self |}.

(** What a connection attempt leaves: its outcome, the client (whose
    [session] may have been assigned) and the environment. *)
Definition Attempt : Type :=
  (Res unit * MCPClient ClientSession * Env World)%type.

(** The end that both connection functions share: enter the transport,
    enter the session and assign it to [self.session], initialize it, list
    the tools. *)
Definition attach (self : MCPClient ClientSession)
           (open : World -> (Exn + Transport) * World) (env : Env World)
  : Attempt :=
  match open (world env) with
  | (inl e, w) => (Exc e, self, set_world env w)
  | (inr transport, w) =>
      match client_session transport w with
      | (inl e, w1) => (Exc e, self, set_world env w1)
      | (inr sess, w1) =>
          let self' := with_session self sess in
          match initialize sess w1 with
          | (inl e, w2) => (Exc e, self', set_world env w2)
          | (inr _, w2) =>
              match perform EvListTools (list_tools sess) (set_world env w2) with
              | (Ok _, env') => (Ok tt, self', env')
              | (Exc e, env') => (Exc e, self', env')
              | (OutOfFuel, env') => (OutOfFuel, self', env')
              end
          end
      end
  end.

Definition _connect_stdio_server (self : MCPClient ClientSession)
           (server_script_path : string) (env : Env World) : Attempt :=
  match stdio_parameters server_script_path with
  | inl e => (Exc e, self, env)
  | inr server_params => attach self (stdio_client server_params) env
  end.

Definition _connect_http_server (self : MCPClient ClientSession)
           (server_url : string) (env : Env World) : Attempt :=
  match http_headers with
  | inl e => (Exc e, self, env)
  | inr headers => attach self (streamablehttp_client server_url headers) env
  end.

Definition connect_to_server (self : MCPClient ClientSession)
           (server_target : string) (env : Env World) : Attempt :=
  if is_http_target server_target
  then _connect_http_server self server_target env
  else _connect_stdio_server self server_target env.

End Connection.

(** ** Facts about strings and flattening *)

Lemma truthy_false (s : string) : PyStr.truthy s = false <-> s = EmptyString.
Proof. destruct s; simpl; split; congruence. Qed.

Lemma lstrip_all_space (s : string) :
  PyStr.all_space s = true -> PyStr.lstrip s = EmptyString.
Proof.
  induction s as [|c rest IH]; simpl; [reflexivity|].
  intros H. apply andb_true_iff in H as [Hc Hrest].
  rewrite Hc. auto.
Qed.

Lemma all_space_lstrip (s : string) :
  PyStr.all_space (PyStr.lstrip s) = true -> PyStr.all_space s = true.
Proof.
  induction s as [|c rest IH]; simpl; [reflexivity|].
  destruct (PyStr.isspace c) eqn:Hc; simpl.
  - exact IH.
  - rewrite Hc. simpl. congruence.
Qed.

Lemma rstrip_empty (s : string) :
  PyStr.rstrip s = EmptyString -> PyStr.all_space s = true.
Proof.
  induction s as [|c rest IH]; simpl; [reflexivity|].
  destruct (PyStr.rstrip rest) eqn:Hrest.
  - destruct (PyStr.isspace c); [intros _; simpl; auto | discriminate].
  - discriminate.
Qed.

Lemma strip_all_space (s : string) :
  PyStr.all_space s = true <-> PyStr.strip s = EmptyString.
Proof.
  unfold PyStr.strip. split.
  - intros H. rewrite (lstrip_all_space s H). reflexivity.
  - intros H. apply all_space_lstrip, rstrip_empty, H.
Qed.

(** Joining the non-empty chunks of a buffer that holds at most [t]. *)
Lemma result_text_one (t : string) :
  result_text (if PyStr.truthy t then [] ++ [t] else []) = t.
Proof. destruct t; reflexivity. Qed.

Lemma flatten_item_part (parts : list string) (item : ContentItem) :
  flatten_item parts item = parts ++ part_of item.
Proof.
  unfold flatten_item, part_of.
  destruct (is_text_type (probe item "type")).
  - destruct (probe item "text") as [text|].
    + destruct (PyStr.truthy text); [reflexivity | now rewrite app_nil_r].
    + now rewrite app_nil_r.
  - reflexivity.
Qed.

Lemma fold_flatten_item (items : list ContentItem) (parts : list string) :
  fold_left flatten_item items parts = parts ++ flat_map part_of items.
Proof.
  revert parts. induction items as [|item rest IH]; intros parts; simpl.
  - now rewrite app_nil_r.
  - rewrite IH, flatten_item_part, <- app_assoc. reflexivity.
Qed.

Lemma flatten_tool_content_parts (items : list ContentItem) :
  _flatten_tool_content (Some items) =
  PyStr.strip (PyStr.join newline (filter PyStr.truthy (flat_map part_of items))).
Proof.
  destruct items as [|item rest]; [reflexivity|].
  unfold _flatten_tool_content. rewrite fold_flatten_item. reflexivity.
Qed.

(** ** Running the monad *)

Lemma bind_ok {A B} (m : Prog A) (k : A -> Prog B) env a env' :
  m env = (Ok a, env') -> bind m k env = k a env'.
Proof. unfold bind. intros ->. reflexivity. Qed.

Lemma bind_exc {A B} (m : Prog A) (k : A -> Prog B) env e env' :
  m env = (Exc e, env') -> bind m k env = (Exc e, env').
Proof. unfold bind. intros ->. reflexivity. Qed.

Lemma bind_out_of_fuel {A B} (m : Prog A) (k : A -> Prog B) env env' :
  m env = (OutOfFuel, env') -> bind m k env = (OutOfFuel, env').
Proof. unfold bind. intros ->. reflexivity. Qed.

Lemma bind_assoc {A B C} (m : Prog A) (k : A -> Prog B) (h : B -> Prog C) env :
  bind (bind m k) h env = bind m (fun a => bind (k a) h) env.
Proof. unfold bind. destruct (m env) as [[a|e|] env']; reflexivity. Qed.

Lemma bind_ext {A B} (m : Prog A) (k k' : A -> Prog B) env :
  (forall a env', k a env' = k' a env') -> bind m k env = bind m k' env.
Proof.
  intros H. unfold bind. destruct (m env) as [[a|e|] env']; auto.
Qed.

Lemma perform_returns {A} ev (op : World -> (Exn + A) * World) env a w :
  op (world env) = (inr a, w) -> perform ev op env = (Ok a, logged env ev w).
Proof. unfold perform. intros ->. reflexivity. Qed.

Lemma perform_raises {A} ev (op : World -> (Exn + A) * World) env e w :
  op (world env) = (inl e, w) -> perform ev op env = (Exc e, logged env ev w).
Proof. unfold perform. intros ->. reflexivity. Qed.

(** ** One tool call *)

Lemma run_tool_call_parse_error sess loc tool_call env exc :
  json_loads (raw_arguments tool_call) = inl exc ->
  run_tool_call sess loc tool_call env =
  (Exc (parse_error (fn_name (call_function tool_call)) exc), env).
Proof. unfold run_tool_call. intros ->. reflexivity. Qed.

Lemma run_tool_call_raises sess loc tool_call env arguments e w :
  json_loads (raw_arguments tool_call) = inr arguments ->
  call_tool sess (fn_name (call_function tool_call)) arguments (world env)
    = (inl e, w) ->
  run_tool_call sess loc tool_call env =
  (Exc e, logged env (invocation tool_call arguments) w).
Proof.
  unfold run_tool_call. intros -> Hcall.
  apply bind_exc. apply (perform_raises _ _ _ _ _ Hcall).
Qed.

Lemma run_tool_call_returns sess loc tool_call env arguments result w :
  json_loads (raw_arguments tool_call) = inr arguments ->
  call_tool sess (fn_name (call_function tool_call)) arguments (world env)
    = (inr result, w) ->
  run_tool_call sess loc tool_call env =
  (Ok (fold_result loc tool_call arguments result),
   logged env (invocation tool_call arguments) w).
Proof.
  unfold run_tool_call. intros -> Hcall.
  erewrite bind_ok by (apply (perform_returns _ _ _ _ _ Hcall)). reflexivity.
Qed.

(** A call never runs out of fuel, and a call that completes has parsed its
    arguments and obtained a result. *)
Lemma run_tool_call_ok_inv sess loc tool_call env loc' env' :
  run_tool_call sess loc tool_call env = (Ok loc', env') ->
  exists arguments result w,
    json_loads (raw_arguments tool_call) = inr arguments /\
    call_tool sess (fn_name (call_function tool_call)) arguments (world env)
      = (inr result, w) /\
    loc' = fold_result loc tool_call arguments result /\
    env' = logged env (invocation tool_call arguments) w.
Proof.
  unfold run_tool_call.
  destruct (json_loads (raw_arguments tool_call)) as [exc|arguments] eqn:Hparse.
  - discriminate.
  - unfold bind, perform.
    destruct (call_tool sess (fn_name (call_function tool_call)) arguments
                        (world env)) as [[e|result] w] eqn:Hcall.
    + discriminate.
    + intros H. inversion H. exists arguments, result, w. auto.
Qed.

Lemma run_tool_call_fuel sess loc tool_call env env' :
  run_tool_call sess loc tool_call env <> (OutOfFuel, env').
Proof.
  unfold run_tool_call.
  destruct (json_loads (raw_arguments tool_call)) as [exc|arguments].
  - discriminate.
  - unfold bind, perform.
    destruct (call_tool sess (fn_name (call_function tool_call)) arguments
                        (world env)) as [[e|result] w]; discriminate.
Qed.

(** ** The calls of one turn *)

Lemma run_tool_calls_app sess pre post loc env :
  run_tool_calls sess (pre ++ post) loc env =
  bind (run_tool_calls sess pre loc) (run_tool_calls sess post) env.
Proof.
  revert loc env. induction pre as [|tool_call pre IH]; intros loc env; simpl.
  - reflexivity.
  - rewrite bind_assoc. apply bind_ext. intros loc' env'. apply IH.
Qed.

Lemma run_tool_calls_fuel sess tool_calls loc env env' :
  run_tool_calls sess tool_calls loc env <> (OutOfFuel, env').
Proof.
  revert loc env. induction tool_calls as [|tool_call rest IH]; intros loc env; simpl.
  - discriminate.
  - unfold bind.
    destruct (run_tool_call sess loc tool_call env) as [[loc'|e|] env1] eqn:Hcall.
    + apply IH.
    + discriminate.
    + exfalso. exact (run_tool_call_fuel _ _ _ _ _ Hcall).
Qed.

(** Calls that all complete: each parsed its arguments, the session was
    invoked once per call in order, and the locals absorbed the results
    in order. *)
Lemma run_tool_calls_ok_inv sess tool_calls loc env loc' env' :
  run_tool_calls sess tool_calls loc env = (Ok loc', env') ->
  exists outs,
    Forall2 parsed tool_calls outs /\
    loc' = fold_left absorb (combine tool_calls outs) loc /\
    trace env' = trace env ++ map invocation_of (combine tool_calls outs).
Proof.
  revert loc env.
  induction tool_calls as [|tool_call rest IH]; intros loc env; simpl.
  - intros H. inversion H. exists []. simpl. rewrite app_nil_r. auto.
  - unfold bind.
    destruct (run_tool_call sess loc tool_call env) as [[loc1|e|] env1] eqn:Hcall;
      try discriminate.
    intros Hrest.
    destruct (run_tool_call_ok_inv _ _ _ _ _ _ Hcall)
      as (arguments & result & w & Hparse & _ & -> & ->).
    destruct (IH _ _ Hrest) as (outs & Hparsed & -> & Htrace).
    exists ((arguments, result) :: outs). simpl. split; [|split].
    + constructor; assumption.
    + reflexivity.
    + rewrite Htrace. simpl. rewrite <- app_assoc. reflexivity.
Qed.

Lemma messages_absorbed (dones : list Done) (loc : Locals) :
  messages (fold_left absorb dones loc) = messages loc ++ map message_of dones.
Proof.
  revert loc. induction dones as [|done rest IH]; intros loc; simpl.
  - now rewrite app_nil_r.
  - rewrite IH. simpl. rewrite <- app_assoc. reflexivity.
Qed.

(** Whatever the outcome, the calls of a turn only add invocations of the
    session to the trace, at most one per call. *)
Lemma run_tool_calls_trace sess tool_calls loc env r env' :
  run_tool_calls sess tool_calls loc env = (r, env') ->
  exists evs,
    trace env' = trace env ++ evs /\
    Forall (fun ev => is_call_tool ev = true) evs /\
    length evs <= length tool_calls.
Proof.
  revert loc env.
  induction tool_calls as [|tool_call rest IH]; intros loc env; simpl.
  - intros H. inversion H. exists []. rewrite app_nil_r. auto.
  - unfold bind, run_tool_call.
    destruct (json_loads (raw_arguments tool_call)) as [exc|arguments].
    + intros H. inversion H. exists []. rewrite app_nil_r.
      repeat split; [constructor | simpl; lia].
    + unfold bind, perform.
      destruct (call_tool sess (fn_name (call_function tool_call)) arguments
                          (world env)) as [[e|result] w].
      * intros H. inversion H. simpl.
        eexists. split; [reflexivity|]. split; [|simpl; lia].
        constructor; [reflexivity | constructor].
      * intros H. destruct (IH _ _ H) as (evs & Htrace & Hall & Hlen).
        simpl in Htrace. rewrite <- app_assoc in Htrace.
        eexists. split; [exact Htrace|]. split; [|simpl; lia].
        constructor; [reflexivity | assumption].
Qed.

(** ** One turn *)

Lemma ask_model_returns self tools loc env completion choice others w :
  create (build_request self tools (messages loc)) (world env) = (inr completion, w) ->
  choices completion = choice :: others ->
  let content_text := PyStr.or_else (msg_content (choice_message choice)) EmptyString in
  ask_model self tools loc env =
  (Ok (content_text, requested_calls (choice_message choice),
       note_text loc content_text),
   logged env (EvCompletion (build_request self tools (messages loc))) w).
Proof.
  intros Hcreate Hchoices. unfold ask_model.
  erewrite bind_ok by (apply (perform_returns _ _ _ _ _ Hcreate)).
  unfold first_message. rewrite Hchoices. reflexivity.
Qed.

Lemma ask_model_ok_inv self tools loc env content_text tool_calls loc1 env1 :
  ask_model self tools loc env = (Ok (content_text, tool_calls, loc1), env1) ->
  exists completion choice others w,
    create (build_request self tools (messages loc)) (world env) = (inr completion, w) /\
    choices completion = choice :: others /\
    content_text = PyStr.or_else (msg_content (choice_message choice)) EmptyString /\
    tool_calls = requested_calls (choice_message choice) /\
    loc1 = note_text loc content_text /\
    env1 = logged env (EvCompletion (build_request self tools (messages loc))) w.
Proof.
  unfold ask_model, bind, perform.
  destruct (create (build_request self tools (messages loc)) (world env))
    as [[e|completion] w] eqn:Hcreate; [discriminate|].
  unfold first_message.
  destruct (choices completion) as [|choice others] eqn:Hchoices; [discriminate|].
  unfold ret. intros H. inversion H. subst.
  exists completion, choice, others, w. auto 10.
Qed.

(** Asking the endpoint logs exactly one completion request, whatever
    comes back. *)
Lemma ask_model_trace self tools loc env r env' :
  ask_model self tools loc env = (r, env') ->
  trace env' = trace env ++ [EvCompletion (build_request self tools (messages loc))]
  /\ r <> OutOfFuel.
Proof.
  unfold ask_model, bind, perform.
  destruct (create (build_request self tools (messages loc)) (world env))
    as [[e|completion] w].
  - intros H. inversion H. split; [reflexivity | discriminate].
  - unfold first_message.
    destruct (choices completion) as [|choice others];
      intros H; inversion H; split; solve [reflexivity | discriminate].
Qed.

Lemma turn_break self sess tools loc env content_text loc1 env1 :
  ask_model self tools loc env = (Ok (content_text, [], loc1), env1) ->
  turn self sess tools loc env = (Ok (Break loc1), env1).
Proof. intros H. unfold turn. rewrite (bind_ok _ _ _ _ _ H). reflexivity. Qed.

Lemma turn_calls self sess tools loc env content_text tool_calls loc1 env1 :
  ask_model self tools loc env = (Ok (content_text, tool_calls, loc1), env1) ->
  tool_calls <> [] ->
  turn self sess tools loc env =
  bind (run_tool_calls sess tool_calls (record_assistant loc1 content_text tool_calls))
       (fun loc' => ret (Continue (next_turn loc'))) env1.
Proof.
  intros H Hne. unfold turn. rewrite (bind_ok _ _ _ _ _ H).
  destruct tool_calls; [congruence | reflexivity].
Qed.

Lemma turn_continue_inv self sess tools loc env loc' env' :
  turn self sess tools loc env = (Ok (Continue loc'), env') ->
  exists content_text tool_calls loc1 env1 loc2,
    ask_model self tools loc env = (Ok (content_text, tool_calls, loc1), env1) /\
    tool_calls <> [] /\
    run_tool_calls sess tool_calls (record_assistant loc1 content_text tool_calls) env1
      = (Ok loc2, env') /\
    loc' = next_turn loc2.
Proof.
  unfold turn, bind at 1.
  destruct (ask_model self tools loc env) as [[[[content_text tool_calls] loc1]|e|] env1];
    try discriminate.
  destruct tool_calls as [|tool_call rest]; [discriminate|].
  unfold bind.
  destruct (run_tool_calls sess (tool_call :: rest)
              (record_assistant loc1 content_text (tool_call :: rest)) env1)
    as [[loc2|e|] env2] eqn:Hrun; try discriminate.
  unfold ret. intros H. inversion H. subst.
  exists content_text, (tool_call :: rest), loc1, env1, loc2.
  repeat split; [discriminate | exact Hrun].
Qed.

Lemma turn_break_inv self sess tools loc env loc' env' :
  turn self sess tools loc env = (Ok (Break loc'), env') ->
  exists content_text,
    ask_model self tools loc env = (Ok (content_text, [], loc'), env').
Proof.
  unfold turn, bind at 1.
  destruct (ask_model self tools loc env) as [[[[content_text tool_calls] loc1]|e|] env1];
    try discriminate.
  destruct tool_calls as [|tool_call rest].
  - unfold ret. intros H. inversion H. subst. exists content_text. reflexivity.
  - unfold bind.
    destruct (run_tool_calls sess (tool_call :: rest)
                (record_assistant loc1 content_text (tool_call :: rest)) env1)
      as [[loc2|e|] env2]; discriminate.
Qed.

Lemma turn_fuel self sess tools loc env env' :
  turn self sess tools loc env <> (OutOfFuel, env').
Proof.
  unfold turn, bind at 1.
  destruct (ask_model self tools loc env) as [[[[content_text tool_calls] loc1]|e|] env1] eqn:Hask;
    try discriminate.
  - destruct tool_calls as [|tool_call rest]; [discriminate|].
    unfold bind.
    destruct (run_tool_calls sess (tool_call :: rest)
                (record_assistant loc1 content_text (tool_call :: rest)) env1)
      as [[loc2|e|] env2] eqn:Hrun; try discriminate.
    exfalso. exact (run_tool_calls_fuel _ _ _ _ _ Hrun).
  - exfalso. apply ask_model_trace in Hask. tauto.
Qed.

(** ** The loop *)

Lemma turn_loop_break fuel self sess tools loc env loc' env' :
  turn self sess tools loc env = (Ok (Break loc'), env') ->
  turn_loop (S fuel) self sess tools loc env = (Ok loc', env').
Proof. intros H. simpl. rewrite (bind_ok _ _ _ _ _ H). reflexivity. Qed.

Lemma turn_loop_continue fuel self sess tools loc env loc' env' :
  turn self sess tools loc env = (Ok (Continue loc'), env') ->
  turn_loop (S fuel) self sess tools loc env =
  turn_loop fuel self sess tools loc' env'.
Proof. intros H. simpl. rewrite (bind_ok _ _ _ _ _ H). reflexivity. Qed.

Lemma turn_loop_exc fuel self sess tools loc env e env' :
  turn self sess tools loc env = (Exc e, env') ->
  turn_loop (S fuel) self sess tools loc env = (Exc e, env').
Proof. intros H. simpl. apply bind_exc, H. Qed.

Lemma after_turns_snoc n self sess tools loc env loc1 env1 loc2 env2 :
  after_turns n self sess tools loc env = Some (loc1, env1) ->
  turn self sess tools loc1 env1 = (Ok (Continue loc2), env2) ->
  after_turns (S n) self sess tools loc env = Some (loc2, env2).
Proof.
  revert loc env. induction n as [|n IH]; intros loc env.
  - simpl. intros H Hturn. inversion H; subst. rewrite Hturn. reflexivity.
  - intros H Hturn. simpl in H. change
      (match turn self sess tools loc env with
       | (Ok (Continue loc'), env') => after_turns (S n) self sess tools loc' env'
       | _ => None
       end = Some (loc2, env2)).
    destruct (turn self sess tools loc env) as [[[l|l]|e|] env']; try discriminate.
    exact (IH _ _ H Hturn).
Qed.

Lemma after_turns_last n self sess tools loc env loc2 env2 :
  after_turns (S n) self sess tools loc env = Some (loc2, env2) ->
  exists loc1 env1,
    after_turns n self sess tools loc env = Some (loc1, env1) /\
    turn self sess tools loc1 env1 = (Ok (Continue loc2), env2).
Proof.
  revert loc env. induction n as [|n IH]; intros loc env.
  - simpl. intros H. exists loc, env. split; [reflexivity|].
    destruct (turn self sess tools loc env) as [[[l|l]|e|] env']; try discriminate.
    inversion H; subst. reflexivity.
  - intros H. change
      (match turn self sess tools loc env with
       | (Ok (Continue loc'), env') => after_turns (S n) self sess tools loc' env'
       | _ => None
       end = Some (loc2, env2)) in H.
    simpl.
    destruct (turn self sess tools loc env) as [[[l|l]|e|] env']; try discriminate.
    exact (IH _ _ H).
Qed.

Lemma turn_loop_after n self sess tools loc env loc' env' fuel :
  after_turns n self sess tools loc env = Some (loc', env') ->
  turn_loop (n + fuel) self sess tools loc env =
  turn_loop fuel self sess tools loc' env'.
Proof.
  revert loc env. induction n as [|n IH]; intros loc env; simpl.
  - intros H. inversion H. reflexivity.
  - destruct (turn self sess tools loc env) as [[[l|l]|e|] env1] eqn:Hturn;
      try discriminate.
    intros H. rewrite (bind_ok _ _ _ _ _ Hturn). exact (IH _ _ H).
Qed.

(** While turns go on, the loop is still running: [n] turns of fuel are
    used up without an outcome. *)
Lemma turn_loop_still_running n self sess tools loc env loc' env' :
  after_turns n self sess tools loc env = Some (loc', env') ->
  turn_loop n self sess tools loc env = (OutOfFuel, env').
Proof.
  intros H. rewrite <- (Nat.add_0_r n) at 1.
  rewrite (turn_loop_after _ _ _ _ _ _ _ _ 0 H). reflexivity.
Qed.

Lemma process_query_entry fuel self query env0 sess tools env :
  loop_entry self env0 = Some (sess, tools, env) ->
  process_query fuel self query env0 =
  finish (turn_loop fuel self sess tools (initial_locals query) env).
Proof.
  unfold loop_entry, process_query.
  destruct (session self) as [s|]; [|discriminate].
  unfold bind at 1.
  destruct (perform EvListTools (list_tools s) env0) as [[listed|e|] env1];
    try discriminate.
  intros H. inversion H. subst. unfold bind, finish, ret.
  destruct (turn_loop fuel self sess (available_tools listed)
                      (initial_locals query) env) as [[loc|e|] env2]; reflexivity.
Qed.

Lemma process_query_at_turn n fuel self query env0 sess tools loc env :
  at_turn self query env0 n = Some (sess, tools, loc, env) ->
  process_query (n + fuel) self query env0 =
  finish (turn_loop fuel self sess tools loc env).
Proof.
  unfold at_turn.
  destruct (loop_entry self env0) as [[[s t] env1]|] eqn:Hentry; [|discriminate].
  destruct (after_turns n self s t (initial_locals query) env1)
    as [[loc' env']|] eqn:Hafter; [|discriminate].
  intros H. inversion H. subst.
  rewrite (process_query_entry _ _ _ _ _ _ _ Hentry).
  rewrite (turn_loop_after _ _ _ _ _ _ _ _ fuel Hafter). reflexivity.
Qed.

Lemma at_turn_next n self query env0 sess tools loc env loc' env' :
  at_turn self query env0 n = Some (sess, tools, loc, env) ->
  turn self sess tools loc env = (Ok (Continue loc'), env') ->
  at_turn self query env0 (S n) = Some (sess, tools, loc', env').
Proof.
  unfold at_turn.
  destruct (loop_entry self env0) as [[[s t] env1]|]; [|discriminate].
  destruct (after_turns n self s t (initial_locals query) env1)
    as [[l e]|] eqn:Hafter; [|discriminate].
  intros H Hturn. inversion H. subst.
  rewrite (after_turns_snoc _ _ _ _ _ _ _ _ _ _ Hafter Hturn). reflexivity.
Qed.

Lemma at_turn_previous n self query env0 sess tools loc' env' :
  at_turn self query env0 (S n) = Some (sess, tools, loc', env') ->
  exists loc env,
    at_turn self query env0 n = Some (sess, tools, loc, env) /\
    turn self sess tools loc env = (Ok (Continue loc'), env').
Proof.
  unfold at_turn.
  destruct (loop_entry self env0) as [[[s t] env1]|]; [|discriminate].
  destruct (after_turns (S n) self s t (initial_locals query) env1)
    as [[l e]|] eqn:Hafter; [|discriminate].
  intros H. inversion H. subst.
  destruct (after_turns_last _ _ _ _ _ _ _ _ Hafter) as (loc & env & Hn & Hturn).
  exists loc, env. rewrite Hn. auto.
Qed.

(** ** Inside a turn *)

Lemma firstn_succ {A} (l : list A) (k : nat) (x : A) :
  nth_error l k = Some x -> firstn (S k) l = firstn k l ++ [x].
Proof.
  revert k. induction l as [|y l IH]; intros [|k]; simpl; try discriminate.
  - intros H. inversion H. reflexivity.
  - intros H. f_equal. apply IH, H.
Qed.

Lemma split_at {A} (l : list A) (k : nat) (x : A) :
  nth_error l k = Some x -> l = firstn k l ++ x :: skipn (S k) l.
Proof.
  revert k. induction l as [|y l IH]; intros [|k]; simpl; try discriminate.
  - intros H. inversion H. reflexivity.
  - intros H. f_equal. apply IH, H.
Qed.

Lemma in_turn_inv self query env0 n k sess tool_calls loc2 env2 :
  in_turn self query env0 n k = Some (sess, tool_calls, loc2, env2) ->
  exists tools loc env content_text loc1 env1,
    at_turn self query env0 n = Some (sess, tools, loc, env) /\
    ask_model self tools loc env = (Ok (content_text, tool_calls, loc1), env1) /\
    run_tool_calls sess (firstn k tool_calls)
      (record_assistant loc1 content_text tool_calls) env1 = (Ok loc2, env2).
Proof.
  unfold in_turn.
  destruct (at_turn self query env0 n) as [[[[s tools] loc] env]|]; [|discriminate].
  destruct (ask_model self tools loc env)
    as [[[[content_text calls] loc1]|e|] env1] eqn:Hask; try discriminate.
  destruct (run_tool_calls s (firstn k calls)
              (record_assistant loc1 content_text calls) env1)
    as [[l|e|] env3] eqn:Hrun; try discriminate.
  intros H. inversion H. subst.
  exists tools, loc, env, content_text, loc1, env1. auto.
Qed.

Lemma in_turn_intro self query env0 n k sess tools loc env
      content_text tool_calls loc1 env1 loc2 env2 :
  at_turn self query env0 n = Some (sess, tools, loc, env) ->
  ask_model self tools loc env = (Ok (content_text, tool_calls, loc1), env1) ->
  run_tool_calls sess (firstn k tool_calls)
    (record_assistant loc1 content_text tool_calls) env1 = (Ok loc2, env2) ->
  in_turn self query env0 n k = Some (sess, tool_calls, loc2, env2).
Proof.
  intros Hat Hask Hrun. unfold in_turn. rewrite Hat, Hask, Hrun. reflexivity.
Qed.

(** A call that completes moves the execution to the next call. *)
Lemma in_turn_step self query env0 n k sess tool_calls loc env tool_call loc' env' :
  in_turn self query env0 n k = Some (sess, tool_calls, loc, env) ->
  nth_error tool_calls k = Some tool_call ->
  run_tool_call sess loc tool_call env = (Ok loc', env') ->
  in_turn self query env0 n (S k) = Some (sess, tool_calls, loc', env').
Proof.
  intros Hin Hnth Hcall.
  destruct (in_turn_inv _ _ _ _ _ _ _ _ _ Hin)
    as (tools & loc0 & env_0 & content_text & loc1 & env1 & Hat & Hask & Hrun).
  apply (in_turn_intro _ _ _ _ _ _ _ _ _ _ _ _ _ _ _ Hat Hask).
  rewrite (firstn_succ _ _ _ Hnth), run_tool_calls_app.
  rewrite (bind_ok _ _ _ _ _ Hrun). simpl.
  rewrite (bind_ok _ _ _ _ _ Hcall). reflexivity.
Qed.

(** A call that raises ends [process_query] with that exception, in the
    environment the call left. *)
Lemma in_turn_raise self query env0 n k sess tool_calls loc env tool_call e env' fuel :
  in_turn self query env0 n k = Some (sess, tool_calls, loc, env) ->
  nth_error tool_calls k = Some tool_call ->
  run_tool_call sess loc tool_call env = (Exc e, env') ->
  n < fuel ->
  process_query fuel self query env0 = (Exc e, env').
Proof.
  intros Hin Hnth Hcall Hfuel.
  destruct (in_turn_inv _ _ _ _ _ _ _ _ _ Hin)
    as (tools & loc0 & env_0 & content_text & loc1 & env1 & Hat & Hask & Hrun).
  replace fuel with (n + S (fuel - S n)) by lia.
  rewrite (process_query_at_turn _ _ _ _ _ _ _ _ _ Hat).
  assert (Hne : tool_calls <> []) by (destruct tool_calls, k; discriminate).
  assert (Hturn : turn self sess tools loc0 env_0 = (Exc e, env')).
  { rewrite (turn_calls _ _ _ _ _ _ _ _ _ Hask Hne).
    apply bind_exc.
    rewrite (split_at _ _ _ Hnth) at 1. rewrite run_tool_calls_app.
    rewrite (bind_ok _ _ _ _ _ Hrun). simpl.
    apply bind_exc, Hcall. }
  rewrite (turn_loop_exc _ _ _ _ _ _ _ _ Hturn). reflexivity.
Qed.

(** Once every call of the turn is done, the next turn begins. *)
Lemma in_turn_finished self query env0 n k sess tool_calls loc env :
  in_turn self query env0 n k = Some (sess, tool_calls, loc, env) ->
  length tool_calls <= k ->
  tool_calls <> [] ->
  exists tools,
    at_turn self query env0 n <> None /\
    at_turn self query env0 (S n) = Some (sess, tools, next_turn loc, env).
Proof.
  intros Hin Hlen Hne.
  destruct (in_turn_inv _ _ _ _ _ _ _ _ _ Hin)
    as (tools & loc0 & env_0 & content_text & loc1 & env1 & Hat & Hask & Hrun).
  exists tools. split; [congruence|].
  apply (at_turn_next _ _ _ _ _ _ _ _ _ _ Hat).
  rewrite (turn_calls _ _ _ _ _ _ _ _ _ Hask Hne).
  rewrite firstn_all2 in Hrun by exact Hlen.
  rewrite (bind_ok _ _ _ _ _ Hrun). reflexivity.
Qed.

(** ** What a run adds to the trace *)

Lemma carries_request self tools msgs :
  carries tools (EvCompletion (build_request self tools msgs)).
Proof. destruct tools; reflexivity. Qed.

Lemma carries_call_tool tools evs :
  Forall (fun ev => is_call_tool ev = true) evs -> Forall (carries tools) evs.
Proof.
  apply Forall_impl. intros [| |name arguments]; simpl; solve [discriminate | trivial].
Qed.

(** A turn logs its completion request, then invocations of the session. *)
Lemma turn_trace self sess tools loc env r env' :
  turn self sess tools loc env = (r, env') ->
  exists evs,
    trace env' =
      trace env ++ EvCompletion (build_request self tools (messages loc)) :: evs /\
    Forall (fun ev => is_call_tool ev = true) evs.
Proof.
  unfold turn, bind at 1.
  destruct (ask_model self tools loc env)
    as [[[[content_text tool_calls] loc1]|e|] env1] eqn:Hask;
    destruct (ask_model_trace _ _ _ _ _ _ Hask) as [Htrace _].
  - destruct tool_calls as [|tool_call rest].
    + intros H. inversion H. subst. exists []. auto.
    + unfold bind.
      destruct (run_tool_calls sess (tool_call :: rest)
                  (record_assistant loc1 content_text (tool_call :: rest)) env1)
        as [[loc2|e|] env2] eqn:Hrun;
        destruct (run_tool_calls_trace _ _ _ _ _ _ Hrun) as (evs & Hevs & Hall & _);
        intros H; inversion H; subst; exists evs;
        rewrite Hevs, Htrace, <- app_assoc; auto.
  - intros H. inversion H. subst. exists []. auto.
  - intros H. inversion H. subst. exists []. auto.
Qed.

(** The loop only appends to the trace, and every completion request it
    logs carries the same declarations. *)
Lemma turn_loop_trace fuel self sess tools loc env r env' :
  turn_loop fuel self sess tools loc env = (r, env') ->
  exists evs,
    trace env' = trace env ++ evs /\
    Forall (carries tools) evs /\
    (0 < fuel ->
     exists later,
       evs = EvCompletion (build_request self tools (messages loc)) :: later).
Proof.
  revert loc env. induction fuel as [|fuel IH]; intros loc env; simpl.
  - intros H. inversion H. exists []. rewrite app_nil_r.
    repeat split; [constructor | lia].
  - unfold bind.
    destruct (turn self sess tools loc env) as [[ctl|e|] env1] eqn:Hturn;
      destruct (turn_trace _ _ _ _ _ _ _ Hturn) as (evs & Hevs & Hall).
    + destruct ctl as [loc1|loc1].
      * intros H. inversion H. subst. eexists. split; [exact Hevs|].
        split; [|eauto].
        constructor; [apply carries_request | apply carries_call_tool, Hall].
      * intros H. destruct (IH _ _ H) as (more & Hmore & Hcarry & _).
        rewrite Hevs, <- app_assoc in Hmore. simpl in Hmore.
        eexists. split; [exact Hmore|]. split; [|eauto].
        constructor; [apply carries_request|].
        apply Forall_app. split; [apply carries_call_tool, Hall | exact Hcarry].
    + intros H. inversion H. subst. eexists. split; [exact Hevs|].
      split; [|eauto].
      constructor; [apply carries_request | apply carries_call_tool, Hall].
    + exfalso. exact (turn_fuel _ _ _ _ _ _ Hturn).
Qed.

Lemma finish_env (r : Res Locals * Env World) : snd (finish r) = snd r.
Proof. destruct r as [[loc|e|] env]; reflexivity. Qed.

(** A loop that ends normally ended at the first turn that broke out. *)
Lemma turn_loop_ok_inv fuel self sess tools loc env loc' env' :
  turn_loop fuel self sess tools loc env = (Ok loc', env') ->
  exists n loc1 env1,
    n < fuel /\
    after_turns n self sess tools loc env = Some (loc1, env1) /\
    turn self sess tools loc1 env1 = (Ok (Break loc'), env').
Proof.
  revert loc env. induction fuel as [|fuel IH]; intros loc env; simpl.
  - discriminate.
  - unfold bind.
    destruct (turn self sess tools loc env) as [[[loc1|loc1]|e|] env1] eqn:Hturn;
      try discriminate.
    + intros H. inversion H. subst. exists 0, loc, env.
      repeat split; [lia | exact Hturn].
    + intros H. destruct (IH _ _ H) as (n & loc2 & env2 & Hn & Hafter & Hbreak).
      exists (S n), loc2, env2. simpl. rewrite Hturn. repeat split; [lia | | ]; assumption.
Qed.

(** ** Properties of [process_query] *)

(** C4.  When the endpoint's first answer requests no tool call,
    [process_query] returns that answer's content trimmed of surrounding
    white space (the empty string when the content is missing, empty or all
    white space), and the session is not asked to run any tool: the run logs
    the catalog listing and one completion request, nothing else. *)
Theorem text_only_answer fuel self query env0 sess listed w completion choice others w' :
  session self = Some sess ->
  list_tools sess (world env0) = (inr listed, w) ->
  create (build_request self (available_tools listed) [UserMessage query]) w
    = (inr completion, w') ->
  choices completion = choice :: others ->
  requested_calls (choice_message choice) = [] ->
  let request := build_request self (available_tools listed) [UserMessage query] in
  let content_text := PyStr.or_else (msg_content (choice_message choice)) EmptyString in
  process_query (S fuel) self query env0 =
    (Ok (PyStr.strip content_text),
     {| world := w'; trace := trace env0 ++ [EvListTools; EvCompletion request] |})
  /\ (PyStr.all_space content_text = true -> PyStr.strip content_text = EmptyString)
  /\ filter is_call_tool (trace (snd (process_query (S fuel) self query env0)))
     = filter is_call_tool (trace env0).
Proof.
  intros Hsess Hlist Hcreate Hchoices Hcalls request content_text.
  assert (Hrun : process_query (S fuel) self query env0 =
    (Ok (PyStr.strip content_text),
     {| world := w'; trace := trace env0 ++ [EvListTools; EvCompletion request] |})).
  { assert (Hentry : loop_entry self env0 =
                     Some (sess, available_tools listed, logged env0 EvListTools w)).
    { unfold loop_entry. rewrite Hsess.
      rewrite (perform_returns _ _ _ _ _ Hlist). reflexivity. }
    rewrite (process_query_entry _ _ _ _ _ _ _ Hentry).
    pose proof (ask_model_returns self (available_tools listed) (initial_locals query)
                  (logged env0 EvListTools w) completion choice others w'
                  Hcreate Hchoices) as Hask.
    simpl in Hask. rewrite Hcalls in Hask.
    rewrite (turn_loop_break _ _ _ _ _ _ _ _ (turn_break _ sess _ _ _ _ _ _ Hask)).
    unfold finish, note_text, logged. simpl.
    rewrite result_text_one, <- app_assoc. reflexivity. }
  split; [exact Hrun|]. split.
  - apply strip_all_space.
  - rewrite Hrun. simpl. rewrite filter_app. simpl. apply app_nil_r.
Qed.

(** C5.  The loop of [process_query] has one exit, the turn whose answer
    carries no tool call.  (1) A run that returns has gone through turns that
    all requested tools and returns at the first turn that requests none.
    (2) At every turn the loop reaches: the turns before it all requested at
    least one tool call; the loop has not ended, whatever their number; one
    more completion request is sent; if the answer carries no tool call the
    run returns there; and if it carries some and they complete, a further
    turn begins.  No count of turns stops the loop. *)
Theorem loop_exits_on_empty_turn self query env0 :
  (forall fuel text env_end,
      process_query fuel self query env0 = (Ok text, env_end) ->
      exists n sess tools loc env content_text loc1,
        n < fuel /\
        at_turn self query env0 n = Some (sess, tools, loc, env) /\
        ask_model self tools loc env = (Ok (content_text, [], loc1), env_end) /\
        text = result_text (final_chunks loc1))
  /\
  (forall n sess tools loc env,
      at_turn self query env0 n = Some (sess, tools, loc, env) ->
      (forall m, m < n ->
         exists loc_m env_m content_text tool_calls loc1 env1,
           at_turn self query env0 m = Some (sess, tools, loc_m, env_m) /\
           ask_model self tools loc_m env_m
             = (Ok (content_text, tool_calls, loc1), env1) /\
           tool_calls <> [])
      /\ process_query n self query env0 = (OutOfFuel, env)
      /\ (forall fuel, n < fuel ->
            exists later,
              trace (snd (process_query fuel self query env0)) =
              trace env ++ EvCompletion (build_request self tools (messages loc)) :: later)
      /\ (forall content_text loc1 env1 fuel,
            ask_model self tools loc env = (Ok (content_text, [], loc1), env1) ->
            n < fuel ->
            process_query fuel self query env0
              = (Ok (result_text (final_chunks loc1)), env1))
      /\ (forall content_text tool_calls loc1 env1 loc2 env2,
            ask_model self tools loc env = (Ok (content_text, tool_calls, loc1), env1) ->
            tool_calls <> [] ->
            run_tool_calls sess tool_calls
              (record_assistant loc1 content_text tool_calls) env1 = (Ok loc2, env2) ->
            at_turn self query env0 (S n) = Some (sess, tools, next_turn loc2, env2))).
Proof.
  split.
  - intros fuel text env_end Hrun.
    destruct (loop_entry self env0) as [[[sess tools] env1]|] eqn:Hentry.
    + rewrite (process_query_entry _ _ _ _ _ _ _ Hentry) in Hrun.
      destruct (turn_loop fuel self sess tools (initial_locals query) env1)
        as [[loc'|e|] env'] eqn:Hloop; try discriminate.
      simpl in Hrun. inversion Hrun. subst.
      destruct (turn_loop_ok_inv _ _ _ _ _ _ _ _ Hloop)
        as (n & loc & env & Hn & Hafter & Hbreak).
      destruct (turn_break_inv _ _ _ _ _ _ _ Hbreak) as (content_text & Hask).
      exists n, sess, tools, loc, env, content_text, loc'.
      repeat split; try assumption.
      unfold at_turn. rewrite Hentry, Hafter. reflexivity.
    + exfalso. revert Hrun Hentry. unfold process_query, loop_entry.
      destruct (session self) as [sess|]; [|discriminate].
      unfold bind at 1.
      destruct (perform EvListTools (list_tools sess) env0) as [[listed|e|] env1];
        discriminate.
  - intros n sess tools loc env Hat. repeat split.
    + clear - Hat. revert loc env Hat.
      induction n as [|n IH]; intros loc env Hat m Hm; [lia|].
      destruct (at_turn_previous _ _ _ _ _ _ _ _ Hat) as (loc0 & env_0 & Hprev & Hturn).
      destruct (Nat.eq_dec m n) as [->|Hneq].
      * destruct (turn_continue_inv _ _ _ _ _ _ _ Hturn)
          as (content_text & tool_calls & loc1 & env1 & loc2 & Hask & Hne & _).
        exists loc0, env_0, content_text, tool_calls, loc1, env1. auto.
      * apply (IH _ _ Hprev). lia.
    + rewrite <- (Nat.add_0_r n) at 1.
      rewrite (process_query_at_turn _ _ _ _ _ _ _ _ _ Hat). reflexivity.
    + intros fuel Hfuel. replace fuel with (n + S (fuel - S n)) by lia.
      rewrite (process_query_at_turn _ _ _ _ _ _ _ _ _ Hat), finish_env.
      destruct (turn_loop (S (fuel - S n)) self sess tools loc env) as [r env'] eqn:Hloop.
      destruct (turn_loop_trace _ _ _ _ _ _ _ _ Hloop) as (evs & Hevs & _ & Hfirst).
      destruct Hfirst as (later & ->); [lia|]. exists later. exact Hevs.
    + intros content_text loc1 env1 fuel Hask Hfuel.
      replace fuel with (n + S (fuel - S n)) by lia.
      rewrite (process_query_at_turn _ _ _ _ _ _ _ _ _ Hat).
      rewrite (turn_loop_break _ _ _ _ _ _ _ _ (turn_break _ sess _ _ _ _ _ _ Hask)).
      reflexivity.
    + intros content_text tool_calls loc1 env1 loc2 env2 Hask Hne Hrun.
      apply (at_turn_next _ _ _ _ _ _ _ _ _ _ Hat).
      rewrite (turn_calls _ _ _ _ _ _ _ _ _ Hask Hne).
      rewrite (bind_ok _ _ _ _ _ Hrun). reflexivity.
Qed.

Lemma entries_appended (tool_calls : list ToolCall) (acc : list ToolCallEntry) :
  fold_left (fun acc tool_call => acc ++ [tool_call_entry tool_call]) tool_calls acc
  = acc ++ map tool_call_entry tool_calls.
Proof.
  revert acc. induction tool_calls as [|tool_call rest IH]; intros acc; simpl.
  - now rewrite app_nil_r.
  - rewrite IH, <- app_assoc. reflexivity.
Qed.

Lemma assistant_message_entries content_text tool_calls :
  assistant_message content_text tool_calls =
  AssistantMessage content_text (map tool_call_entry tool_calls).
Proof. unfold assistant_message. rewrite entries_appended. reflexivity. Qed.

(** Where the execution stands after [k] calls of turn [n]: the trace holds
    the completion request and one invocation per executed call, and the
    transcript holds the assistant message and one tool message per
    executed call, both in the order of the calls. *)
Lemma in_turn_progress self query env0 n k sess tool_calls loc2 env2 :
  in_turn self query env0 n k = Some (sess, tool_calls, loc2, env2) ->
  exists tools loc env content_text loc1 env1 outs,
    at_turn self query env0 n = Some (sess, tools, loc, env) /\
    ask_model self tools loc env = (Ok (content_text, tool_calls, loc1), env1) /\
    Forall2 parsed (firstn k tool_calls) outs /\
    trace env2 = trace env1 ++ map invocation_of (combine (firstn k tool_calls) outs) /\
    messages loc2 =
      messages loc ++ assistant_message content_text tool_calls
                   :: map message_of (combine (firstn k tool_calls) outs).
Proof.
  intros Hin.
  destruct (in_turn_inv _ _ _ _ _ _ _ _ _ Hin)
    as (tools & loc & env & content_text & loc1 & env1 & Hat & Hask & Hrun).
  destruct (run_tool_calls_ok_inv _ _ _ _ _ _ Hrun) as (outs & Hparsed & -> & Htrace).
  exists tools, loc, env, content_text, loc1, env1, outs.
  repeat split; try assumption.
  rewrite messages_absorbed. simpl.
  destruct (ask_model_ok_inv _ _ _ _ _ _ _ _ Hask)
    as (completion & choice & others & w & _ & _ & _ & _ & -> & _).
  simpl. rewrite <- app_assoc. reflexivity.
Qed.

Lemma in_turn_step_inv self query env0 n k sess tool_calls loc env tool_call loc' env' :
  in_turn self query env0 n k = Some (sess, tool_calls, loc, env) ->
  nth_error tool_calls k = Some tool_call ->
  in_turn self query env0 n (S k) = Some (sess, tool_calls, loc', env') ->
  run_tool_call sess loc tool_call env = (Ok loc', env').
Proof.
  intros Hin Hnth Hnext.
  destruct (in_turn_inv _ _ _ _ _ _ _ _ _ Hin)
    as (tools & loc0 & env_0 & content_text & loc1 & env1 & Hat & Hask & Hrun).
  destruct (in_turn_inv _ _ _ _ _ _ _ _ _ Hnext)
    as (tools' & loc0' & env_0' & content_text' & loc1' & env1' & Hat' & Hask' & Hrun').
  rewrite Hat in Hat'. inversion Hat'. subst.
  rewrite Hask in Hask'. inversion Hask'. subst.
  rewrite (firstn_succ _ _ _ Hnth), run_tool_calls_app in Hrun'.
  rewrite (bind_ok _ _ _ _ _ Hrun) in Hrun'. simpl in Hrun'.
  unfold bind, ret in Hrun'.
  destruct (run_tool_call sess loc tool_call env) as [[l|e|] env2];
    congruence.
Qed.

(** C3.  Take a turn in which the endpoint requested the calls
    [tool_calls].  After any number [k] of them, the session has been
    invoked for the first [k] calls, one after the other in the order of the
    list, and the transcript holds the assistant message followed by the [k]
    tool messages in that order.  When the loop goes on to the next
    completion request, the session has been invoked exactly once per call,
    [length tool_calls] times in all and in order, the transcript holds one
    tool message per call in the same order, and the request that follows
    carries that transcript. *)
Theorem tool_calls_run_in_order self query env0 n sess tools loc env
        content_text tool_calls loc1 env1 :
  at_turn self query env0 n = Some (sess, tools, loc, env) ->
  ask_model self tools loc env = (Ok (content_text, tool_calls, loc1), env1) ->
  (forall k loc2 env2,
      in_turn self query env0 n k = Some (sess, tool_calls, loc2, env2) ->
      exists outs,
        Forall2 parsed (firstn k tool_calls) outs /\
        trace env2 =
          trace env1 ++ map invocation_of (combine (firstn k tool_calls) outs) /\
        messages loc2 =
          messages loc ++ assistant_message content_text tool_calls
                       :: map message_of (combine (firstn k tool_calls) outs))
  /\
  (forall loc' env',
      at_turn self query env0 (S n) = Some (sess, tools, loc', env') ->
      exists outs,
        length outs = length tool_calls /\
        Forall2 parsed tool_calls outs /\
        trace env' = trace env1 ++ map invocation_of (combine tool_calls outs) /\
        messages loc' =
          messages loc ++ assistant_message content_text tool_calls
                       :: map message_of (combine tool_calls outs) /\
        forall r env2,
          ask_model self tools loc' env' = (r, env2) ->
          trace env2 =
            trace env' ++ [EvCompletion (build_request self tools (messages loc'))]).
Proof.
  intros Hat Hask. split.
  - intros k loc2 env2 Hin.
    destruct (in_turn_progress _ _ _ _ _ _ _ _ _ Hin)
      as (tools' & loc0 & env_0 & content' & loc1' & env1' & outs
          & Hat' & Hask' & Hparsed & Htrace & Hmsgs).
    rewrite Hat in Hat'. inversion Hat'. subst.
    rewrite Hask in Hask'. inversion Hask'. subst.
    exists outs. auto.
  - intros loc' env' Hnext.
    destruct (at_turn_previous _ _ _ _ _ _ _ _ Hnext) as (loc0 & env_0 & Hat' & Hturn).
    rewrite Hat in Hat'. inversion Hat'. subst.
    destruct (turn_continue_inv _ _ _ _ _ _ _ Hturn)
      as (content' & calls' & loc1' & env1' & loc2 & Hask' & _ & Hrun & ->).
    rewrite Hask in Hask'. inversion Hask'. subst.
    destruct (run_tool_calls_ok_inv _ _ _ _ _ _ Hrun) as (outs & Hparsed & -> & Htrace).
    exists outs. split; [symmetry; exact (Forall2_length Hparsed)|].
    split; [exact Hparsed|]. split; [exact Htrace|]. split.
    + simpl. rewrite messages_absorbed. simpl.
      destruct (ask_model_ok_inv _ _ _ _ _ _ _ _ Hask)
        as (completion & choice & others & w & _ & _ & _ & _ & -> & _).
      simpl. rewrite <- app_assoc. reflexivity.
    + intros r env2 Hask2. exact (proj1 (ask_model_trace _ _ _ _ _ _ Hask2)).
Qed.

(** C8.  The tool message appended for an executed call carries the call's
    [id] unchanged as its [tool_call_id]; it is the message at the call's
    position after the assistant message of the turn, which lists the call
    under the same [id]. *)
Theorem tool_call_id_round_trip self query env0 n k sess tool_calls loc env
        tool_call loc' env' :
  in_turn self query env0 n k = Some (sess, tool_calls, loc, env) ->
  nth_error tool_calls k = Some tool_call ->
  in_turn self query env0 n (S k) = Some (sess, tool_calls, loc', env') ->
  exists output before content_text earlier,
    messages loc' =
      messages loc ++ [ToolMessage (call_id tool_call)
                                   (fn_name (call_function tool_call)) output] /\
    messages loc =
      before ++ AssistantMessage content_text (map tool_call_entry tool_calls)
             :: earlier /\
    length earlier = k /\
    nth_error (map entry_id (map tool_call_entry tool_calls)) k
      = Some (call_id tool_call).
Proof.
  intros Hin Hnth Hnext.
  pose proof (in_turn_step_inv _ _ _ _ _ _ _ _ _ _ _ _ Hin Hnth Hnext) as Hcall.
  destruct (run_tool_call_ok_inv _ _ _ _ _ _ Hcall)
    as (arguments & result & w & _ & _ & -> & _).
  destruct (in_turn_progress _ _ _ _ _ _ _ _ _ Hin)
    as (tools & loc0 & env_0 & content_text & loc1 & env1 & outs
        & _ & _ & Hparsed & _ & Hmsgs).
  eexists. exists (messages loc0), content_text.
  exists (map message_of (combine (firstn k tool_calls) outs)).
  split; [reflexivity|]. split; [|split].
  - rewrite Hmsgs, assistant_message_entries. reflexivity.
  - rewrite length_map. unfold Done.
    rewrite length_combine, <- (Forall2_length Hparsed), Nat.min_id.
    apply firstn_length_le. apply Nat.lt_le_incl, nth_error_Some. congruence.
  - rewrite map_map. rewrite nth_error_map, Hnth. reflexivity.
Qed.

(** C2, as amended.  When the arguments of a tool call are a non-empty string
    that does not parse as JSON, [process_query] raises the [ValueError] that
    reports the parse failure: the exception reaches the caller and no default
    stands in for the arguments.  The run ends in the environment it had
    reached before that call, so the session was invoked for the earlier
    calls of the turn only, not for this one. *)
Theorem malformed_arguments_propagate self query env0 n k sess tool_calls loc env
        tool_call raw exc fuel :
  in_turn self query env0 n k = Some (sess, tool_calls, loc, env) ->
  nth_error tool_calls k = Some tool_call ->
  fn_arguments (call_function tool_call) = Some raw ->
  raw <> EmptyString ->
  json_loads raw = inl exc ->
  n < fuel ->
  process_query fuel self query env0 =
    (Exc (parse_error (fn_name (call_function tool_call)) exc), env)
  /\ exists tools loc0 env_0 outs,
       at_turn self query env0 n = Some (sess, tools, loc0, env_0) /\
       length outs = k /\
       trace env =
         trace env_0 ++ EvCompletion (build_request self tools (messages loc0))
                     :: map invocation_of (combine (firstn k tool_calls) outs).
Proof.
  intros Hin Hnth Hraw Hnonempty Hjson Hfuel.
  assert (Hparse : json_loads (raw_arguments tool_call) = inl exc).
  { unfold raw_arguments. rewrite Hraw. destruct raw; [congruence | exact Hjson]. }
  split.
  - apply (in_turn_raise _ _ _ _ _ _ _ _ _ _ _ _ _ Hin Hnth); [|exact Hfuel].
    apply run_tool_call_parse_error, Hparse.
  - destruct (in_turn_progress _ _ _ _ _ _ _ _ _ Hin)
      as (tools & loc0 & env_0 & content_text & loc1 & env1 & outs
          & Hat & Hask & Hparsed & Htrace & _).
    exists tools, loc0, env_0, outs. split; [exact Hat|]. split.
    + rewrite <- (Forall2_length Hparsed).
      apply firstn_length_le. apply Nat.lt_le_incl, nth_error_Some. congruence.
    + rewrite Htrace, (proj1 (ask_model_trace _ _ _ _ _ _ Hask)), <- app_assoc.
      reflexivity.
Qed.

Lemma run_tool_call_trace sess loc tool_call env arguments r env' :
  json_loads (raw_arguments tool_call) = inr arguments ->
  run_tool_call sess loc tool_call env = (r, env') ->
  trace env' = trace env ++ [invocation tool_call arguments].
Proof.
  unfold run_tool_call. intros ->. unfold bind, perform.
  destruct (call_tool sess (fn_name (call_function tool_call)) arguments (world env))
    as [[e|result] w]; intros H; inversion H; reflexivity.
Qed.

(** The trace of a run extends the trace it had right after any call it
    reached. *)
Lemma process_query_trace_after_call self query env0 n k sess tool_calls loc env
      tool_call r env' fuel :
  in_turn self query env0 n k = Some (sess, tool_calls, loc, env) ->
  nth_error tool_calls k = Some tool_call ->
  run_tool_call sess loc tool_call env = (r, env') ->
  n < fuel ->
  exists later,
    trace (snd (process_query fuel self query env0)) = trace env' ++ later.
Proof.
  intros Hin Hnth Hcall Hfuel.
  destruct r as [loc'|e|].
  - destruct (in_turn_inv _ _ _ _ _ _ _ _ _ Hin)
      as (tools & loc0 & env_0 & content_text & loc1 & env1 & Hat & Hask & Hrun).
    replace fuel with (n + S (fuel - S n)) by lia.
    rewrite (process_query_at_turn _ _ _ _ _ _ _ _ _ Hat), finish_env.
    assert (Hne : tool_calls <> []) by (destruct tool_calls, k; discriminate).
    assert (Hcalls :
              run_tool_calls sess tool_calls
                (record_assistant loc1 content_text tool_calls) env1 =
              run_tool_calls sess (skipn (S k) tool_calls) loc' env').
    { rewrite (split_at _ _ _ Hnth) at 1. rewrite run_tool_calls_app.
      rewrite (bind_ok _ _ _ _ _ Hrun). simpl.
      rewrite (bind_ok _ _ _ _ _ Hcall). reflexivity. }
    pose proof (turn_calls _ sess _ _ _ _ _ _ _ Hask Hne) as Hturn.
    destruct (run_tool_calls sess (skipn (S k) tool_calls) loc' env')
      as [[loc2|e|] env2] eqn:Hrest;
      destruct (run_tool_calls_trace _ _ _ _ _ _ Hrest) as (evs & Hevs & _).
    + rewrite (bind_ok _ _ _ _ _ Hcalls) in Hturn.
      rewrite (turn_loop_continue _ _ _ _ _ _ _ _ Hturn).
      destruct (turn_loop (fuel - S n) self sess tools (next_turn loc2) env2)
        as [r3 env3] eqn:Hloop.
      destruct (turn_loop_trace _ _ _ _ _ _ _ _ Hloop) as (more & Hmore & _).
      exists (evs ++ more). simpl. rewrite Hmore, Hevs, <- app_assoc. reflexivity.
    + rewrite (bind_exc _ _ _ _ _ Hcalls) in Hturn.
      rewrite (turn_loop_exc _ _ _ _ _ _ _ _ Hturn).
      exists evs. exact Hevs.
    + exfalso. exact (run_tool_calls_fuel _ _ _ _ _ Hrest).
  - rewrite (in_turn_raise _ _ _ _ _ _ _ _ _ _ _ _ _ Hin Hnth Hcall Hfuel).
    exists []. simpl. now rewrite app_nil_r.
  - exfalso. exact (run_tool_call_fuel _ _ _ _ _ Hcall).
Qed.

Lemma piece_kept (item : ContentItem) :
  filter PyStr.truthy (part_of item) = filter PyStr.truthy [spec_piece item].
Proof.
  unfold part_of, spec_piece.
  destruct (is_text_type (probe item "type")); [|reflexivity].
  destruct (probe item "text") as [text|]; [|reflexivity].
  destruct (PyStr.truthy text) eqn:Htext; simpl; rewrite Htext; reflexivity.
Qed.

Lemma pieces_kept (items : list ContentItem) :
  filter PyStr.truthy (flat_map part_of items) =
  filter PyStr.truthy (map spec_piece items).
Proof.
  induction items as [|item rest IH]; [reflexivity|].
  change (flat_map part_of (item :: rest)) with (part_of item ++ flat_map part_of rest).
  change (map spec_piece (item :: rest)) with ([spec_piece item] ++ map spec_piece rest).
  rewrite !filter_app, IH, piece_kept. reflexivity.
Qed.

Lemma or_else_no_output (tool_output : string) :
  PyStr.or_else (Some tool_output) "(no output)" =
  if PyStr.truthy tool_output then tool_output else "(no output)".
Proof. reflexivity. Qed.

(** C1, as amended.  Take a tool call whose arguments parse.  When the
    session returns a result, be it one that reports a failure, the result
    is handled like any other: its flattened content, or ["(no output)"]
    when that is empty, is appended to the transcript as the tool message of
    the call, and the loop goes on to the next call, or to the next turn
    after the last call.  When the session's call raises, nothing is
    appended and the exception leaves [process_query]. *)
Theorem session_failure_handling self query env0 n k sess tool_calls loc env
        tool_call arguments :
  in_turn self query env0 n k = Some (sess, tool_calls, loc, env) ->
  nth_error tool_calls k = Some tool_call ->
  json_loads (raw_arguments tool_call) = inr arguments ->
  (forall result w,
      call_tool sess (fn_name (call_function tool_call)) arguments (world env)
        = (inr result, w) ->
      let tool_output := _flatten_tool_content (content result) in
      let loc' := fold_result loc tool_call arguments result in
      let env' := logged env (invocation tool_call arguments) w in
      messages loc' =
        messages loc ++
        [ToolMessage (call_id tool_call) (fn_name (call_function tool_call))
           (if PyStr.truthy tool_output then tool_output else "(no output)")] /\
      in_turn self query env0 n (S k) = Some (sess, tool_calls, loc', env') /\
      (length tool_calls <= S k ->
       exists tools,
         at_turn self query env0 (S n) = Some (sess, tools, next_turn loc', env')))
  /\
  (forall e w fuel,
      call_tool sess (fn_name (call_function tool_call)) arguments (world env)
        = (inl e, w) ->
      n < fuel ->
      process_query fuel self query env0 =
        (Exc e, logged env (invocation tool_call arguments) w)).
Proof.
  intros Hin Hnth Hparse. split.
  - intros result w Hcall tool_output loc' env'.
    pose proof (run_tool_call_returns sess loc _ _ _ _ _ Hparse Hcall) as Hrun.
    pose proof (in_turn_step _ _ _ _ _ _ _ _ _ _ _ _ Hin Hnth Hrun) as Hnext.
    split; [reflexivity|]. split; [exact Hnext|].
    intros Hlast.
    assert (Hne : tool_calls <> []) by (destruct tool_calls, k; discriminate).
    destruct (in_turn_finished _ _ _ _ _ _ _ _ _ Hnext Hlast Hne) as (tools & _ & Hturn).
    exists tools. exact Hturn.
  - intros e w fuel Hcall Hfuel.
    apply (in_turn_raise _ _ _ _ _ _ _ _ _ _ _ _ _ Hin Hnth); [|exact Hfuel].
    apply (run_tool_call_raises _ _ _ _ _ _ _ Hparse Hcall).
Qed.

(** C6, as amended.  For every executed tool call: the flattened output is
    obtained from the pieces of the returned content (the text of an item of
    kind text, the printed form of any other item) by dropping the empty
    pieces, joining the others with newlines in order and trimming the white
    space around the whole; the output buffer receives the summary
    ["[Tool <name> called with args <args>]"] and then the flattened output
    when it is not empty; the tool message appended to the transcript carries
    the flattened output, or ["(no output)"] when it is empty. *)
Theorem tool_output_is_folded self query env0 n k sess tool_calls loc env
        tool_call loc' env' :
  in_turn self query env0 n k = Some (sess, tool_calls, loc, env) ->
  nth_error tool_calls k = Some tool_call ->
  in_turn self query env0 n (S k) = Some (sess, tool_calls, loc', env') ->
  exists arguments result,
    json_loads (raw_arguments tool_call) = inr arguments /\
    call_tool sess (fn_name (call_function tool_call)) arguments (world env)
      = (inr result, world env') /\
    let tool_name := fn_name (call_function tool_call) in
    let items := match content result with Some items => items | None => [] end in
    let tool_output := _flatten_tool_content (content result) in
    tool_output =
      PyStr.strip (PyStr.join newline (filter PyStr.truthy (map spec_piece items))) /\
    final_chunks loc' =
      final_chunks loc ++
      ("[Tool " ++ tool_name ++ " called with args " ++ py_str arguments ++ "]")%string
      :: (if PyStr.truthy tool_output then [tool_output] else []) /\
    messages loc' =
      messages loc ++
      [ToolMessage (call_id tool_call) tool_name
         (if PyStr.truthy tool_output then tool_output else "(no output)")].
Proof.
  intros Hin Hnth Hnext.
  pose proof (in_turn_step_inv _ _ _ _ _ _ _ _ _ _ _ _ Hin Hnth Hnext) as Hcall.
  destruct (run_tool_call_ok_inv _ _ _ _ _ _ Hcall)
    as (arguments & result & w & Hparse & Hsession & -> & ->).
  exists arguments, result. split; [exact Hparse|]. split; [exact Hsession|].
  simpl. split; [|split].
  - destruct (content result) as [items|]; [|reflexivity].
    rewrite flatten_tool_content_parts, pieces_kept. reflexivity.
  - destruct (PyStr.truthy (_flatten_tool_content (content result)));
      rewrite <- ?app_assoc; reflexivity.
  - reflexivity.
Qed.

(** C10.  Provided [json.loads] reads ["{}"] as the empty dictionary: a
    tool call whose arguments are absent or the empty string is run with the
    empty dictionary as its arguments.  The next call the run makes is the
    invocation of the tool with [{}], so no parse error is raised for it, and
    when the session answers the loop moves on with that answer. *)
Theorem absent_arguments_default self query env0 n k sess tool_calls loc env tool_call :
  json_loads "{}" = inr (PyDict []) ->
  in_turn self query env0 n k = Some (sess, tool_calls, loc, env) ->
  nth_error tool_calls k = Some tool_call ->
  fn_arguments (call_function tool_call) = None \/
  fn_arguments (call_function tool_call) = Some EmptyString ->
  let tool_name := fn_name (call_function tool_call) in
  (forall fuel, n < fuel ->
     exists later,
       trace (snd (process_query fuel self query env0)) =
       trace env ++ EvCallTool tool_name (PyDict []) :: later)
  /\
  (forall result w,
      call_tool sess tool_name (PyDict []) (world env) = (inr result, w) ->
      in_turn self query env0 n (S k) =
      Some (sess, tool_calls, fold_result loc tool_call (PyDict []) result,
            logged env (EvCallTool tool_name (PyDict [])) w)).
Proof.
  intros Hjson Hin Hnth Habsent tool_name.
  assert (Hparse : json_loads (raw_arguments tool_call) = inr (PyDict [])).
  { unfold raw_arguments. destruct Habsent as [-> | ->]; exact Hjson. }
  split.
  - intros fuel Hfuel.
    destruct (run_tool_call sess loc tool_call env) as [r env'] eqn:Hcall.
    destruct (process_query_trace_after_call _ _ _ _ _ _ _ _ _ _ _ _ _
                Hin Hnth Hcall Hfuel) as (later & Hlater).
    exists later.
    rewrite Hlater, (run_tool_call_trace _ _ _ _ _ _ _ Hparse Hcall), <- app_assoc.
    reflexivity.
  - intros result w Hcall.
    apply (in_turn_step _ _ _ _ _ _ _ _ _ _ _ _ Hin Hnth).
    apply (run_tool_call_returns _ _ _ _ _ _ _ Hparse Hcall).
Qed.


(** C7, as amended.  The adapter lists every tool, in order and under its
    name, and never fails.  A tool with no schema, or with a schema object in
    which nothing can be read, is declared with the parameters
    [{"type": "object", "properties": {}}]; a schema that is a dictionary is
    declared as it is, whatever it contains. *)
Theorem unreadable_schema_still_listed (tools : list Tool) :
  map (fun decl => decl_name (decl_function decl)) (available_tools tools)
    = map tool_name tools
  /\ forall i tool,
      nth_error tools i = Some tool ->
      exists decl,
        nth_error (available_tools tools) i = Some decl /\
        decl_name (decl_function decl) = tool_name tool /\
        (unreadable (inputSchema tool) = true ->
         decl_parameters (decl_function decl) = empty_parameters) /\
        (forall entries,
            inputSchema tool = SchemaDict entries ->
            decl_parameters (decl_function decl) = PyDict entries).
Proof.
  split.
  - unfold available_tools. rewrite map_map. reflexivity.
  - intros i tool Hnth. exists (declare tool). split; [|split; [|split]].
    + unfold available_tools. rewrite nth_error_map, Hnth. reflexivity.
    + reflexivity.
    + simpl. destruct (inputSchema tool) as [|entries|model_dump as_dict vars]; simpl.
      * reflexivity.
      * discriminate.
      * destruct (call_if_callable model_dump); [discriminate|].
        destruct (call_if_callable as_dict); [discriminate|].
        destruct vars; [discriminate | reflexivity].
    + intros entries Hdict. simpl. rewrite Hdict. reflexivity.
Qed.

(** ** More on strings *)

Lemma rstrip_idempotent (s : string) : PyStr.rstrip (PyStr.rstrip s) = PyStr.rstrip s.
Proof.
  induction s as [|c rest IH]; simpl; [reflexivity|].
  destruct (PyStr.rstrip rest) as [|d kept] eqn:Hrest.
  - destruct (PyStr.isspace c) eqn:Hc; simpl; [reflexivity|]. rewrite Hc. reflexivity.
  - simpl in IH. simpl. destruct (PyStr.rstrip kept) as [|d' kept'] eqn:Hkept.
    + destruct (PyStr.isspace d); [discriminate|]. rewrite IH. reflexivity.
    + rewrite IH. reflexivity.
Qed.

(** A string that starts with a character that is not white space keeps it
    under [rstrip], so [lstrip] has nothing left to remove. *)
Lemma lstrip_rstrip_head (c : ascii) (rest : string) :
  PyStr.isspace c = false ->
  PyStr.lstrip (PyStr.rstrip (String c rest)) = PyStr.rstrip (String c rest).
Proof.
  intros Hc. simpl. destruct (PyStr.rstrip rest); rewrite ?Hc; simpl; rewrite Hc; reflexivity.
Qed.

Lemma lstrip_shape (s : string) :
  PyStr.lstrip s = EmptyString \/
  exists c rest, PyStr.lstrip s = String c rest /\ PyStr.isspace c = false.
Proof.
  induction s as [|c rest IH]; simpl; [left; reflexivity|].
  destruct (PyStr.isspace c) eqn:Hc; [exact IH|].
  right. exists c, rest. auto.
Qed.

Lemma strip_idempotent (s : string) : PyStr.strip (PyStr.strip s) = PyStr.strip s.
Proof.
  unfold PyStr.strip.
  destruct (lstrip_shape s) as [-> | (c & rest & -> & Hc)]; [reflexivity|].
  rewrite (lstrip_rstrip_head c rest Hc). apply rstrip_idempotent.
Qed.

Lemma all_space_append (a b : string) :
  PyStr.all_space (a ++ b) = PyStr.all_space a && PyStr.all_space b.
Proof.
  induction a as [|c a IH]; simpl; [reflexivity|].
  rewrite IH. apply andb_assoc.
Qed.

Lemma all_space_join (parts : list string) :
  PyStr.all_space (PyStr.join newline parts) = forallb PyStr.all_space parts.
Proof.
  unfold PyStr.join.
  induction parts as [|part rest IH]; [reflexivity|].
  destruct rest as [|next rest].
  - simpl. now rewrite andb_true_r.
  - change (String.concat newline (part :: next :: rest))
      with (part ++ newline ++ String.concat newline (next :: rest))%string.
    rewrite !all_space_append, IH. reflexivity.
Qed.

Lemma truthy_all_space (s : string) : PyStr.truthy s = false -> PyStr.all_space s = true.
Proof. destruct s; [reflexivity | discriminate]. Qed.




(** [s.endswith(suffix)] holds exactly when [s] is some text followed by
    [suffix]. *)
Lemma str_endswith_spec (suffix s : string) :
  str_endswith suffix s = true <-> exists front, s = (front ++ suffix)%string.
Proof.
  induction s as [|c rest IH]; simpl.
  - destruct (String.eqb_spec suffix EmptyString) as [->|Hne].
    + split; [exists EmptyString; reflexivity | reflexivity].
    + split; [discriminate|]. intros (front & Hfront).
      destruct front; simpl in Hfront; congruence.
  - destruct (String.eqb_spec suffix (String c rest)) as [->|Hne].
    + split; [exists EmptyString; reflexivity | reflexivity].
    + rewrite IH. split.
      * intros (front & ->). exists (String c front). reflexivity.
      * intros (front & Hfront). destruct front as [|d front]; simpl in Hfront.
        -- congruence.
        -- inversion Hfront. subst. exists front. reflexivity.
Qed.

(** ** More on flattening *)

Lemma flatten_trimmed (content : option (list ContentItem)) :
  PyStr.strip (_flatten_tool_content content) = _flatten_tool_content content.
Proof.
  destruct content as [items|]; [|reflexivity].
  rewrite flatten_tool_content_parts. apply strip_idempotent.
Qed.

(** X1.  The flattened output of a tool result never starts or ends with
    white space, and it is empty exactly when every piece the result
    contributes is blank; this is the case in which the transcript gets
    ["(no output)"]. *)
Theorem flatten_blank_iff (content : option (list ContentItem)) :
  let items := match content with Some items => items | None => [] end in
  PyStr.strip (_flatten_tool_content content) = _flatten_tool_content content /\
  (_flatten_tool_content content = EmptyString <->
   Forall (fun part => PyStr.all_space part = true) (flat_map part_of items)).
Proof.
  split; [apply flatten_trimmed|].
  destruct content as [items|]; [|split; [constructor | reflexivity]].
  rewrite flatten_tool_content_parts, <- strip_all_space, all_space_join.
  rewrite forallb_forall, Forall_forall. split.
  - intros H part Hin.
    destruct (PyStr.truthy part) eqn:Hpart; [|apply truthy_all_space, Hpart].
    apply H, filter_In. auto.
  - intros H part Hin. apply filter_In in Hin. apply H, Hin.
Qed.

(** ** The transcript across turns *)

Lemma answers_message_of (tool_call : ToolCall) (out : PyVal * CallToolResult) :
  answers tool_call (message_of (tool_call, out)).
Proof.
  unfold message_of, tool_message, answers. cbn [fst snd].
  rewrite or_else_no_output.
  destruct (PyStr.truthy (_flatten_tool_content (content (snd out)))) eqn:Houtput.
  - repeat split; [exact Houtput | apply flatten_trimmed].
  - repeat split.
Qed.

Lemma answers_all (tool_calls : list ToolCall) (outs : list (PyVal * CallToolResult)) :
  length outs = length tool_calls ->
  Forall2 answers tool_calls (map message_of (combine tool_calls outs)).
Proof.
  revert outs. induction tool_calls as [|tool_call rest IH]; intros [|out outs] Hlen;
    try discriminate; simpl.
  - constructor.
  - constructor; [apply answers_message_of | apply IH; simpl in Hlen; lia].
Qed.

(** What a turn that goes on leaves in the locals. *)
Lemma turn_continue_locals self sess tools loc env loc' env' :
  turn self sess tools loc env = (Ok (Continue loc'), env') ->
  exists content_text tool_calls outs,
    tool_calls <> [] /\
    length outs = length tool_calls /\
    loc' = next_turn (fold_left absorb (combine tool_calls outs)
                        (record_assistant (note_text loc content_text)
                                          content_text tool_calls)).
Proof.
  intros Hturn.
  destruct (turn_continue_inv _ _ _ _ _ _ _ Hturn)
    as (content_text & tool_calls & loc1 & env1 & loc2 & Hask & Hne & Hrun & ->).
  destruct (ask_model_ok_inv _ _ _ _ _ _ _ _ Hask)
    as (completion & choice & others & w & _ & _ & _ & _ & -> & _).
  destruct (run_tool_calls_ok_inv _ _ _ _ _ _ Hrun) as (outs & Hparsed & -> & _).
  exists content_text, tool_calls, outs.
  split; [exact Hne|]. split; [symmetry; exact (Forall2_length Hparsed) | reflexivity].
Qed.

Lemma turn_preserves_well_formed self sess tools loc env loc' env' query :
  turn self sess tools loc env = (Ok (Continue loc'), env') ->
  well_formed query (messages loc) ->
  well_formed query (messages loc').
Proof.
  intros Hturn Hwf.
  destruct (turn_continue_locals _ _ _ _ _ _ _ Hturn)
    as (content_text & tool_calls & outs & Hne & Hlen & ->).
  simpl. rewrite messages_absorbed. simpl. rewrite <- app_assoc. simpl.
  apply well_formed_turn; [exact Hwf|].
  rewrite assistant_message_entries.
  apply turn_block_intro; [exact Hne | apply answers_all, Hlen].
Qed.

Lemma at_turn_zero self query env0 sess tools loc env :
  at_turn self query env0 0 = Some (sess, tools, loc, env) ->
  loop_entry self env0 = Some (sess, tools, env) /\ loc = initial_locals query.
Proof.
  unfold at_turn.
  destruct (loop_entry self env0) as [[[s t] env1]|]; [|discriminate].
  simpl. intros H. inversion H. auto.
Qed.

Lemma at_turn_entry self query env0 n sess tools loc env :
  at_turn self query env0 n = Some (sess, tools, loc, env) ->
  exists env1, loop_entry self env0 = Some (sess, tools, env1).
Proof.
  unfold at_turn.
  destruct (loop_entry self env0) as [[[s t] env1]|]; [|discriminate].
  destruct (after_turns n self s t (initial_locals query) env1) as [[l e]|];
    [|discriminate].
  intros H. inversion H. subst. exists env1. reflexivity.
Qed.

(** X2.  At the start of every turn that [process_query] reaches, the
    transcript is the user's query followed by completed turns only: for each
    earlier turn, the assistant message that lists the requested calls and
    then exactly one tool message per call, in the order of the calls, with
    the call's [id] and tool name and a content that is neither empty nor
    padded with white space. *)
Theorem transcript_well_formed self query env0 n sess tools loc env :
  at_turn self query env0 n = Some (sess, tools, loc, env) ->
  well_formed query (messages loc).
Proof.
  revert loc env. induction n as [|n IH]; intros loc env Hat.
  - destruct (at_turn_zero _ _ _ _ _ _ _ Hat) as [_ ->]. constructor.
  - destruct (at_turn_previous _ _ _ _ _ _ _ _ Hat) as (loc0 & env_0 & Hprev & Hturn).
    exact (turn_preserves_well_formed _ _ _ _ _ _ _ _ Hturn (IH _ _ Hprev)).
Qed.

Lemma turn_proper self sess tools loc env r env' query :
  well_formed query (messages loc) ->
  turn self sess tools loc env = (r, env') ->
  exists evs,
    trace env' = trace env ++ evs /\
    Forall (proper_request self tools query) evs.
Proof.
  intros Hwf Hturn.
  destruct (turn_trace _ _ _ _ _ _ _ Hturn) as (calls & Htrace & Hcalls).
  eexists. split; [exact Htrace|]. constructor.
  - exists (messages loc). auto.
  - revert Hcalls. apply Forall_impl.
    intros [| |name arguments]; simpl; solve [discriminate | trivial].
Qed.

Lemma turn_loop_proper fuel self sess tools loc env r env' query :
  well_formed query (messages loc) ->
  turn_loop fuel self sess tools loc env = (r, env') ->
  exists evs,
    trace env' = trace env ++ evs /\
    Forall (proper_request self tools query) evs.
Proof.
  revert loc env. induction fuel as [|fuel IH]; intros loc env Hwf; simpl.
  - intros H. inversion H. exists []. rewrite app_nil_r. auto.
  - unfold bind.
    destruct (turn self sess tools loc env) as [[ctl|e|] env1] eqn:Hturn;
      destruct (turn_proper _ _ _ _ _ _ _ query Hwf Hturn) as (evs & Hevs & Hproper).
    + destruct ctl as [loc1|loc1].
      * intros H. inversion H. subst. exists evs. auto.
      * intros H.
        destruct (IH _ _ (turn_preserves_well_formed _ _ _ _ _ _ _ _ Hturn Hwf) H)
          as (more & Hmore & Hmore_proper).
        exists (evs ++ more). rewrite Hmore, Hevs, <- app_assoc.
        split; [reflexivity | apply Forall_app; auto].
    + intros H. inversion H. subst. exists evs. auto.
    + intros H. inversion H. subst. exists evs. auto.
Qed.

(** A run with a connected session lists the catalog first, and then only
    makes completion requests for its query and tool invocations. *)
Lemma process_query_proper fuel self query env0 sess listed w :
  session self = Some sess ->
  list_tools sess (world env0) = (inr listed, w) ->
  exists evs,
    trace (snd (process_query fuel self query env0)) =
      trace env0 ++ EvListTools :: evs /\
    Forall (proper_request self (available_tools listed) query) evs.
Proof.
  intros Hsess Hlist.
  assert (Hentry : loop_entry self env0 =
                   Some (sess, available_tools listed, logged env0 EvListTools w)).
  { unfold loop_entry. rewrite Hsess, (perform_returns _ _ _ _ _ Hlist). reflexivity. }
  rewrite (process_query_entry _ _ _ _ _ _ _ Hentry), finish_env.
  destruct (turn_loop fuel self sess (available_tools listed)
                      (initial_locals query) (logged env0 EvListTools w))
    as [r env'] eqn:Hloop.
  destruct (turn_loop_proper fuel self sess (available_tools listed)
              (initial_locals query) _ _ _ query (well_formed_query query) Hloop)
    as (evs & Hevs & Hproper).
  exists evs. simpl. rewrite Hevs. simpl. rewrite <- app_assoc. auto.
Qed.

(** X3.  In a run of [process_query] with a connected session, the catalog
    is listed once, before anything else.  Every completion request made
    afterwards names the client's model, carries a transcript of the shape
    described in X2 for the query at hand, and either has no [tools] entry and
    no [tool_choice] (when the catalog is empty) or has the whole declaration
    list with [tool_choice] set to ["auto"]. *)
Theorem requests_well_configured fuel self query env0 sess listed w :
  session self = Some sess ->
  list_tools sess (world env0) = (inr listed, w) ->
  exists evs,
    trace (snd (process_query fuel self query env0)) =
      trace env0 ++ EvListTools :: evs /\
    ~ In EvListTools evs /\
    forall request,
      In (EvCompletion request) evs ->
      req_model request = model self /\
      well_formed query (req_messages request) /\
      match available_tools listed with
      | [] => req_tools request = None /\ req_tool_choice request = None
      | _ :: _ =>
          req_tools request = Some (available_tools listed) /\
          req_tool_choice request = Some "auto"
      end.
Proof.
  intros Hsess Hlist.
  destruct (process_query_proper fuel self query env0 sess listed w Hsess Hlist)
    as (evs & Htrace & Hproper).
  exists evs. split; [exact Htrace|].
  rewrite Forall_forall in Hproper. split.
  - intros Hin. exact (Hproper _ Hin).
  - intros request Hin. destruct (Hproper _ Hin) as (msgs & -> & Hwf).
    destruct (available_tools listed); simpl; auto.
Qed.

(** The chunks one completed call adds to the buffer: the summary, then the
    output when there is one. *)
Lemma absorb_chunks (loc : Locals) (done : Done) :
  exists chunks,
    final_chunks (absorb loc done) = final_chunks loc ++ chunks /\
    Forall (fun chunk => PyStr.truthy chunk = true) chunks /\
    chunks <> [].
Proof.
  unfold absorb, fold_result. simpl.
  destruct (PyStr.truthy (_flatten_tool_content (content (snd (snd done)))))
    eqn:Houtput.
  - rewrite <- app_assoc. eexists. split; [reflexivity|]. split; [|discriminate].
    constructor; [reflexivity|]. constructor; [exact Houtput | constructor].
  - eexists. split; [reflexivity|]. split; [|discriminate].
    constructor; [reflexivity | constructor].
Qed.

Lemma absorbed_extends (dones : list Done) (loc : Locals) :
  exists chunks,
    final_chunks (fold_left absorb dones loc) = final_chunks loc ++ chunks /\
    Forall (fun chunk => PyStr.truthy chunk = true) chunks /\
    (dones <> [] -> chunks <> []).
Proof.
  revert loc. induction dones as [|done rest IH]; intros loc; simpl.
  - exists []. rewrite app_nil_r. repeat split; [constructor | congruence].
  - destruct (IH (absorb loc done)) as (chunks & Hchunks & Htruthy & _).
    destruct (absorb_chunks loc done) as (first & Hfirst & Hfirst_truthy & Hsome).
    exists (first ++ chunks). rewrite Hchunks, Hfirst, <- app_assoc.
    split; [reflexivity|]. split; [apply Forall_app; auto|].
    intros _. destruct first; [congruence | discriminate].
Qed.

(** What a turn that goes on adds to the transcript and to the buffer. *)
Lemma turn_extends self sess tools loc env loc' env' :
  turn self sess tools loc env = (Ok (Continue loc'), env') ->
  exists added chunks,
    messages loc' = messages loc ++ added /\
    final_chunks loc' = final_chunks loc ++ chunks /\
    Forall (fun chunk => PyStr.truthy chunk = true) chunks /\
    chunks <> [] /\
    turn_index loc' = turn_index loc + 1.
Proof.
  intros Hturn.
  destruct (turn_continue_locals _ _ _ _ _ _ _ Hturn)
    as (content_text & tool_calls & outs & Hne & Hlen & ->).
  destruct (absorbed_extends (combine tool_calls outs)
              (record_assistant (note_text loc content_text) content_text tool_calls))
    as (chunks & Hchunks & Htruthy & Hsome).
  assert (Hdones : combine tool_calls outs <> []).
  { destruct tool_calls, outs; simpl in *; congruence. }
  simpl. rewrite messages_absorbed, Hchunks. simpl.
  assert (Hindex : forall dones l, turn_index (fold_left absorb dones l) = turn_index l).
  { induction dones as [|done rest IH]; intros l; simpl; [reflexivity|].
    rewrite IH. reflexivity. }
  rewrite Hindex. simpl.
  destruct (PyStr.truthy (PyStr.strip content_text)) eqn:Htext.
  - eexists. exists (PyStr.strip content_text :: chunks).
    rewrite <- !app_assoc. simpl.
    repeat split; [constructor; assumption | discriminate].
  - eexists. exists chunks. rewrite <- app_assoc.
    repeat split; [assumption | exact (Hsome Hdones)].
Qed.

(** X4.  The transcript and the output buffer are append-only: what they
    hold at the start of a turn is a prefix of what they hold at the start of
    any later turn. *)
Theorem transcript_append_only self query env0 m n sess tools loc_m env_m loc_n env_n :
  at_turn self query env0 m = Some (sess, tools, loc_m, env_m) ->
  at_turn self query env0 n = Some (sess, tools, loc_n, env_n) ->
  m <= n ->
  exists added chunks,
    messages loc_n = messages loc_m ++ added /\
    final_chunks loc_n = final_chunks loc_m ++ chunks.
Proof.
  intros Hm Hn Hle. revert loc_n env_n Hn.
  induction Hle as [|n Hle IH]; intros loc_n env_n Hn.
  - rewrite Hm in Hn. inversion Hn. subst. exists [], []. now rewrite !app_nil_r.
  - destruct (at_turn_previous _ _ _ _ _ _ _ _ Hn) as (loc & env & Hprev & Hturn).
    destruct (IH _ _ Hprev) as (added & chunks & Hmsgs & Hchunks).
    destruct (turn_extends _ _ _ _ _ _ _ Hturn) as (more & later & Hmore & Hlater & _).
    exists (added ++ more), (chunks ++ later).
    rewrite Hmore, Hlater, Hmsgs, Hchunks, <- !app_assoc. auto.
Qed.

Lemma loop_entry_inv self env0 sess tools env :
  loop_entry self env0 = Some (sess, tools, env) ->
  exists listed w,
    session self = Some sess /\
    list_tools sess (world env0) = (inr listed, w) /\
    tools = available_tools listed /\
    env = logged env0 EvListTools w.
Proof.
  unfold loop_entry, perform.
  destruct (session self) as [s|]; [|discriminate].
  destruct (list_tools s (world env0)) as [[e|listed] w] eqn:Hlist; [discriminate|].
  intros H. inversion H. subst. exists listed, w. auto.
Qed.

Lemma no_request_among_calls (evs : list Event) :
  Forall (fun ev => is_call_tool ev = true) evs ->
  filter is_completion evs = [] /\ filter is_list_tools evs = [].
Proof.
  induction 1 as [|ev rest Hev _ [IH1 IH2]]; [auto|].
  destruct ev; try discriminate. simpl. auto.
Qed.

(** X5.  Each turn sends exactly one completion request, and the catalog is
    listed once for the whole query: when turn number [n] (from 0) starts,
    the run has made [n] completion requests and one listing, and
    [turn_index], which the log shows, is [n + 1]. *)
Theorem one_request_per_turn self query env0 n sess tools loc env :
  at_turn self query env0 n = Some (sess, tools, loc, env) ->
  turn_index loc = n + 1 /\
  length (filter is_completion (trace env))
    = length (filter is_completion (trace env0)) + n /\
  length (filter is_list_tools (trace env))
    = length (filter is_list_tools (trace env0)) + 1.
Proof.
  revert loc env. induction n as [|n IH]; intros loc env Hat.
  - destruct (at_turn_zero _ _ _ _ _ _ _ Hat) as [Hentry ->].
    destruct (loop_entry_inv _ _ _ _ _ Hentry) as (listed & w & _ & _ & _ & ->).
    simpl. rewrite !filter_app, !length_app. simpl. auto.
  - destruct (at_turn_previous _ _ _ _ _ _ _ _ Hat) as (loc0 & env_0 & Hprev & Hturn).
    destruct (IH _ _ Hprev) as (Hindex & Hrequests & Hlistings).
    destruct (turn_extends _ _ _ _ _ _ _ Hturn) as (_ & _ & _ & _ & _ & _ & Hnext).
    destruct (turn_trace _ _ _ _ _ _ _ Hturn) as (calls & Htrace & Hcalls).
    destruct (no_request_among_calls calls Hcalls) as [Hnone1 Hnone2].
    rewrite Htrace, !filter_app. simpl. rewrite Hnone1, Hnone2, !length_app. simpl.
    repeat split; lia.
Qed.

(** X6.  Failures ahead of the tools.  Without a session [process_query]
    raises [RuntimeError] and calls nothing.  When listing the catalog fails,
    that exception ends the query before any completion request.  When, at any
    turn, the completion endpoint raises, or answers with no choice at all
    ([IndexError]), that exception ends the query right after the request: no
    tool of that turn is run and what earlier turns gathered is not
    returned. *)
Theorem failures_before_tools self query env0 :
  (session self = None ->
   forall fuel,
     process_query fuel self query env0 =
     (Exc (RuntimeError "Not connected to any MCP server."), env0))
  /\
  (forall sess e w fuel,
      session self = Some sess ->
      list_tools sess (world env0) = (inl e, w) ->
      process_query fuel self query env0 = (Exc e, logged env0 EvListTools w))
  /\
  (forall n sess tools loc env fuel,
      at_turn self query env0 n = Some (sess, tools, loc, env) ->
      n < fuel ->
      (forall e w,
          create (build_request self tools (messages loc)) (world env) = (inl e, w) ->
          process_query fuel self query env0 =
          (Exc e, logged env (EvCompletion (build_request self tools (messages loc))) w))
      /\
      (forall completion w,
          create (build_request self tools (messages loc)) (world env)
            = (inr completion, w) ->
          choices completion = [] ->
          process_query fuel self query env0 =
          (Exc IndexError,
           logged env (EvCompletion (build_request self tools (messages loc))) w))).
Proof.
  split; [|split].
  - intros Hsess fuel. unfold process_query. rewrite Hsess. reflexivity.
  - intros sess e w fuel Hsess Hlist. unfold process_query. rewrite Hsess.
    apply bind_exc. apply (perform_raises _ _ _ _ _ Hlist).
  - intros n sess tools loc env fuel Hat Hfuel.
    replace fuel with (n + S (fuel - S n)) by lia.
    rewrite (process_query_at_turn _ _ _ _ _ _ _ _ _ Hat).
    split.
    + intros e w Hcreate.
      erewrite turn_loop_exc; [reflexivity|].
      unfold turn. apply bind_exc. unfold ask_model. apply bind_exc.
      apply (perform_raises _ _ _ _ _ Hcreate).
    + intros completion w Hcreate Hchoices.
      erewrite turn_loop_exc; [reflexivity|].
      unfold turn. apply bind_exc. unfold ask_model.
      erewrite bind_ok by (apply (perform_returns _ _ _ _ _ Hcreate)).
      apply bind_exc. unfold first_message. rewrite Hchoices. reflexivity.
Qed.




(** ** The interactive shell *)

Lemma bind_ext_left {A B} (m m' : Prog A) (k : A -> Prog B) env :
  m env = m' env -> bind m k env = bind m' k env.
Proof. unfold bind. intros ->. reflexivity. Qed.



(** X9.  Once a line that reads [quit] or [exit] (in any letter case, with
    any white space around it) has been typed, the shell stops: the lines
    after it are not read, and the run is the one the lines before it give. *)
Theorem chat_loop_stops_at_quit fuel self before line after env :
  is_quit (PyStr.strip line) = true ->
  chat_loop fuel self (before ++ line :: after) env = chat_loop fuel self before env.
Proof.
  intros Hquit. revert env.
  induction before as [|first before IH]; intros env; simpl.
  - rewrite Hquit. reflexivity.
  - destruct (is_quit (PyStr.strip first)); [reflexivity|].
    destruct (PyStr.truthy (PyStr.strip first)); [|apply IH].
    apply bind_ext. intros shown env1. apply bind_ext_left. apply IH.
Qed.

(** X10.  A blank line (empty or all white space) costs nothing: it starts
    no query and calls nothing, and the run is the one the other lines
    give. *)
Theorem chat_loop_skips_blank fuel self before line after env :
  PyStr.all_space line = true ->
  chat_loop fuel self (before ++ line :: after) env =
  chat_loop fuel self (before ++ after) env.
Proof.
  intros Hblank. apply strip_all_space in Hblank. revert env.
  induction before as [|first before IH]; intros env; simpl.
  - rewrite Hblank. reflexivity.
  - destruct (is_quit (PyStr.strip first)); [reflexivity|].
    destruct (PyStr.truthy (PyStr.strip first)); [|apply IH].
    apply bind_ext. intros shown env1. apply bind_ext_left. apply IH.
Qed.

(** X11.  Queries are independent of one another: as long as the first lines
    hold no [quit] or [exit], running the shell on lines put end to end is
    running it on the first ones and then, whatever they gave, on the others,
    and the log is the two logs put end to end. *)
Theorem chat_loop_composes fuel self first second env :
  Forall (fun line => is_quit (PyStr.strip line) = false) first ->
  chat_loop fuel self (first ++ second) env =
  (shown <- chat_loop fuel self first ;;
   later <- chat_loop fuel self second ;;
   ret (shown ++ later)) env.
Proof.
  intros Hquit. revert env.
  induction Hquit as [|line rest Hline _ IH]; intros env; simpl.
  - unfold bind, ret.
    destruct (chat_loop fuel self second env) as [[later|e|] env']; reflexivity.
  - rewrite Hline. destruct (PyStr.truthy (PyStr.strip line)); [|apply IH].
    rewrite (bind_assoc (attempt fuel self (PyStr.strip line))).
    apply bind_ext. intros shown env1.
    unfold bind at 1. rewrite IH. unfold bind, ret.
    destruct (chat_loop fuel self rest env1) as [[l1|e|] env2];
      [|reflexivity|reflexivity].
    destruct (chat_loop fuel self second env2) as [[l2|e|] env3]; reflexivity.
Qed.

(** X12.  A shell whose client never got a session fails every query with
    the same [RuntimeError], one log entry per query, and touches nothing
    outside. *)
Theorem chat_loop_disconnected fuel self lines env :
  session self = None ->
  chat_loop fuel self lines env =
  (Ok (map (fun _ => Failed (RuntimeError "Not connected to any MCP server."))
           (queries_of lines)),
   env).
Proof.
  intros Hsess. induction lines as [|line rest IH]; simpl; [reflexivity|].
  destruct (is_quit (PyStr.strip line)); [reflexivity|].
  destruct (PyStr.truthy (PyStr.strip line)); [|exact IH].
  unfold bind at 1, attempt, process_query. rewrite Hsess. simpl.
  unfold bind. rewrite IH. reflexivity.
Qed.

(** A query run with a session lists the catalog once, first, whatever
    happens next, and every completion request it makes carries a transcript
    that starts from this query. *)
Lemma process_query_events fuel self query env sess :
  session self = Some sess ->
  exists evs,
    trace (snd (process_query fuel self query env)) = trace env ++ EvListTools :: evs /\
    filter is_list_tools evs = [] /\
    Forall (fun ev =>
              match ev with
              | EvCompletion request => well_formed query (req_messages request)
              | _ => True
              end) evs.
Proof.
  intros Hsess.
  destruct (list_tools sess (world env)) as [[e|listed] w] eqn:Hlist.
  - exists []. unfold process_query. rewrite Hsess.
    rewrite (bind_exc _ _ _ _ _ (perform_raises _ _ _ _ _ Hlist)). auto.
  - destruct (process_query_proper fuel self query env sess listed w Hsess Hlist)
      as (evs & Htrace & Hproper).
    exists evs. split; [exact Htrace|]. clear Htrace. split.
    + induction Hproper as [|ev rest Hev _ IH]; [reflexivity|].
      destruct ev; simpl in *; [contradiction | exact IH | exact IH].
    + revert Hproper. apply Forall_impl. intros [|request|name arguments]; simpl; auto.
      intros (msgs & -> & Hwf). destruct (available_tools listed); exact Hwf.
Qed.

(** X13.  With a connected client, a shell run that comes to its end has
    logged one entry per query and listed the catalog once per query (it is
    not kept from one query to the next); and the shell keeps no memory
    across queries: every completion request carries a transcript that starts
    with one of the typed queries, trimmed, and holds completed turns of that
    query only. *)
Theorem chat_loop_per_query fuel self lines env sess shown env' :
  session self = Some sess ->
  chat_loop fuel self lines env = (Ok shown, env') ->
  exists evs,
    trace env' = trace env ++ evs /\
    length shown = length (queries_of lines) /\
    length (filter is_list_tools evs) = length (queries_of lines) /\
    Forall (fun ev =>
              match ev with
              | EvCompletion request =>
                  exists query,
                    In query (queries_of lines) /\
                    well_formed query (req_messages request)
              | _ => True
              end) evs.
Proof.
  intros Hsess. revert env shown env'.
  induction lines as [|line rest IH]; intros env shown env'; simpl.
  - intros H. inversion H. exists []. rewrite app_nil_r. auto.
  - destruct (is_quit (PyStr.strip line)).
    { intros H. inversion H. exists []. rewrite app_nil_r. auto. }
    destruct (PyStr.truthy (PyStr.strip line)); [|apply IH].
    unfold bind at 1.
    destruct (process_query_events fuel self (PyStr.strip line) env sess Hsess)
      as (evs & Htrace & Hlistings & Hreqs).
    unfold attempt.
    destruct (process_query fuel self (PyStr.strip line) env) as [[response|e|] env1];
      simpl in Htrace; try discriminate;
      unfold bind, ret;
      (destruct (chat_loop fuel self rest env1) as [[later|e'|] env2] eqn:Hrest;
       try discriminate);
      intros H; inversion H; subst;
      destruct (IH _ _ _ Hrest) as (more & Hmore & Hshown & Hcount & Hmem);
      exists (EvListTools :: evs ++ more);
      (split; [rewrite Hmore, Htrace, <- app_assoc; reflexivity|]);
      (split; [simpl; lia|]);
      (split; [simpl; rewrite filter_app, Hlistings; simpl; lia|]);
      (constructor; [exact I|]); apply Forall_app; split.
    all: try (revert Hreqs; apply Forall_impl; intros [|request|name arguments];
              simpl; auto; intros Hwf; exists (PyStr.strip line); auto).
    all: revert Hmem; apply Forall_impl; intros [|request|name arguments];
      simpl; auto; intros (query & Hin & Hwf); exists query; auto.
Qed.

(** ** The catalog adapter on schema objects *)


(** ** Connecting *)

Lemma append_same_length_suffix (x y a b : string) :
  String.length a = String.length b ->
  (x ++ a)%string = (y ++ b)%string -> a = b.
Proof.
  assert (Hlen : forall u v, String.length (u ++ v) = String.length u + String.length v).
  { induction u as [|c u IH]; intros v; simpl; [reflexivity|]. now rewrite IH. }
  revert y. induction x as [|c x IH]; intros [|d y] Hab Heq; simpl in Heq.
  - exact Heq.
  - exfalso. apply (f_equal String.length) in Heq. simpl in Heq.
    rewrite Hlen in Heq. lia.
  - exfalso. apply (f_equal String.length) in Heq. simpl in Heq.
    rewrite Hlen in Heq. lia.
  - inversion Heq. eauto.
Qed.

Lemma js_is_not_python (front : string) :
  str_endswith ".py" (front ++ ".js") = false.
Proof.
  destruct (str_endswith ".py" (front ++ ".js")) eqn:H; [|reflexivity].
  apply str_endswith_spec in H as (other & Heq).
  apply append_same_length_suffix in Heq; [discriminate | reflexivity].
Qed.

Section ConnectionFacts.

Context {Transport : Type}.
Variable getenv : string -> option string.
Variable stdio_client :
  StdioServerParameters -> World -> (Exn + Transport) * World.
Variable streamablehttp_client :
  string -> option (list (string * string)) -> World -> (Exn + Transport) * World.
Variable client_session : Transport -> World -> (Exn + ClientSession) * World.
Variable initialize : ClientSession -> World -> (Exn + unit) * World.

(** X15.  A target that is not an [http://] or [https://] address is
    launched as a script: with [python] when it ends in [.py], with [node]
    when it ends in [.js], the path being the only argument.  Any other
    target is refused with [ValueError] before anything is launched: the
    client and the environment are left as they were. *)
Theorem script_target_checked self server_target env :
  is_http_target server_target = false ->
  ((forall front, server_target <> (front ++ ".py")%string) ->
   (forall front, server_target <> (front ++ ".js")%string) ->
   connect_to_server getenv stdio_client streamablehttp_client client_session
                     initialize self server_target env
   = (Exc (ValueError "Server script must be a .py or .js file"), self, env))
  /\
  (forall front,
      server_target = (front ++ ".py")%string ->
      connect_to_server getenv stdio_client streamablehttp_client client_session
                        initialize self server_target env
      = attach client_session initialize self
               (stdio_client {| command := "python"; args := [server_target] |}) env)
  /\
  (forall front,
      server_target = (front ++ ".js")%string ->
      connect_to_server getenv stdio_client streamablehttp_client client_session
                        initialize self server_target env
      = attach client_session initialize self
               (stdio_client {| command := "node"; args := [server_target] |}) env).
Proof.
  intros Hhttp. unfold connect_to_server. rewrite Hhttp.
  unfold _connect_stdio_server, stdio_parameters. split; [|split].
  - intros Hpy Hjs.
    destruct (str_endswith ".py" server_target) eqn:Epy.
    { apply str_endswith_spec in Epy as (front & Heq). exfalso. exact (Hpy _ Heq). }
    destruct (str_endswith ".js" server_target) eqn:Ejs.
    { apply str_endswith_spec in Ejs as (front & Heq). exfalso. exact (Hjs _ Heq). }
    reflexivity.
  - intros front Heq.
    assert (Epy : str_endswith ".py" server_target = true)
      by (apply str_endswith_spec; eauto).
    rewrite Epy. reflexivity.
  - intros front Heq.
    assert (Ejs : str_endswith ".js" server_target = true)
      by (apply str_endswith_spec; eauto).
    assert (Epy : str_endswith ".py" server_target = false)
      by (rewrite Heq; apply js_is_not_python).
    rewrite Epy, Ejs. reflexivity.
Qed.

(** X16.  For an [http://] or [https://] target, the headers come from
    [MCP_HTTP_HEADERS].  Unset or empty, the connection is opened without
    headers.  Set to the text of a JSON object, it is opened with the entries
    of the object, each value turned into a string.  Set to anything else
    (text that is not JSON, or JSON that is not an object), the connection is
    refused with [ValueError] before it is opened: the client and the
    environment are left as they were. *)
Theorem http_headers_checked self server_target env :
  is_http_target server_target = true ->
  (getenv "MCP_HTTP_HEADERS" = None \/ getenv "MCP_HTTP_HEADERS" = Some EmptyString ->
   connect_to_server getenv stdio_client streamablehttp_client client_session
                     initialize self server_target env
   = attach client_session initialize self
            (streamablehttp_client server_target None) env)
  /\
  (forall headers_env entries,
      getenv "MCP_HTTP_HEADERS" = Some headers_env ->
      headers_env <> EmptyString ->
      json_loads headers_env = inr (PyDict entries) ->
      connect_to_server getenv stdio_client streamablehttp_client client_session
                        initialize self server_target env
      = attach client_session initialize self
               (streamablehttp_client server_target
                  (Some (map (fun kv => (fst kv, py_str (snd kv))) entries))) env)
  /\
  (forall headers_env,
      getenv "MCP_HTTP_HEADERS" = Some headers_env ->
      headers_env <> EmptyString ->
      (forall entries, json_loads headers_env <> inr (PyDict entries)) ->
      connect_to_server getenv stdio_client streamablehttp_client client_session
                        initialize self server_target env
      = (Exc header_error, self, env)).
Proof.
  intros Hhttp. unfold connect_to_server. rewrite Hhttp.
  unfold _connect_http_server, http_headers. split; [|split].
  - intros [-> | ->]; reflexivity.
  - intros headers_env entries -> Hne Hjson.
    destruct headers_env; [congruence|]. simpl. rewrite Hjson. reflexivity.
  - intros headers_env -> Hne Hbad.
    destruct headers_env as [|c rest]; [congruence|]. simpl.
    destruct (json_loads (String c rest)) as [exc|value] eqn:Hjson; [reflexivity|].
    destruct value; try reflexivity. exfalso. exact (Hbad _ eq_refl).
Qed.

Lemma attach_outcome self open env r self' env' :
  attach client_session initialize self open env = (r, self', env') ->
  model self' = model self /\
  r <> OutOfFuel /\
  (r = Ok tt ->
   exists sess,
     session self' = Some sess /\ trace env' = trace env ++ [EvListTools]) /\
  (r <> Ok tt ->
   self' = self /\ trace env' = trace env \/
   exists sess, self' = with_session self sess).
Proof.
  unfold attach, perform.
  destruct (open (world env)) as [[e|transport] w].
  { intros H. inversion H. subst. repeat split; try discriminate. auto. }
  destruct (client_session transport w) as [[e|sess] w1].
  { intros H. inversion H. subst. repeat split; try discriminate. auto. }
  destruct (initialize sess w1) as [[e|u] w2].
  { intros H. inversion H. subst. repeat split; try discriminate. eauto. }
  simpl. destruct (list_tools sess w2) as [[e|listed] w3];
    intros H; inversion H; subst; repeat split; try discriminate; eauto.
  intros _. exists sess. auto.
Qed.

(** X17.  Whatever way a connection attempt ends, the client keeps its model
    name.  When it succeeds, the client holds a session and the tools were
    listed once; a query on that client then starts by listing the tools of
    the session: it does not fail as not connected.  When it fails, either
    nothing of the client changed and nothing was listed, or the failure came
    after the session was assigned, and the client is left holding it. *)
Theorem connect_outcome self server_target env r self' env' :
  connect_to_server getenv stdio_client streamablehttp_client client_session
                    initialize self server_target env = (r, self', env') ->
  model self' = model self /\
  r <> OutOfFuel /\
  (r = Ok tt ->
   exists sess,
     session self' = Some sess /\
     trace env' = trace env ++ [EvListTools] /\
     forall fuel query,
     exists evs,
       trace (snd (process_query fuel self' query env'))
       = trace env' ++ EvListTools :: evs) /\
  (r <> Ok tt ->
   self' = self /\ trace env' = trace env \/
   exists sess, self' = with_session self sess).
Proof.
  intros Hconnect.
  assert (Hcases :
            (r, self', env') = (Exc (ValueError "Server script must be a .py or .js file"),
                                self, env) \/
            (r, self', env') = (Exc header_error, self, env) \/
            exists open, attach client_session initialize self open env = (r, self', env')).
  { revert Hconnect. unfold connect_to_server, _connect_stdio_server,
      _connect_http_server.
    destruct (is_http_target server_target).
    - destruct (http_headers getenv) as [e|headers] eqn:Hheaders.
      + assert (e = header_error) as ->.
        { revert Hheaders. unfold http_headers.
          destruct (getenv "MCP_HTTP_HEADERS") as [raw|]; [|discriminate].
          destruct (PyStr.truthy raw); [|discriminate].
          destruct (json_loads raw) as [exc|value]; [congruence|].
          destruct value; congruence. }
        intros H. right. left. symmetry. exact H.
      + intros H. right. right. eauto.
    - unfold stdio_parameters.
      destruct (negb (str_endswith ".py" server_target
                      || str_endswith ".js" server_target)).
      + intros H. left. symmetry. exact H.
      + intros H. right. right. eauto. }
  destruct Hcases as [H | [H | (open & Hattach)]].
  - inversion H. subst. repeat split; try discriminate. auto.
  - inversion H. subst. repeat split; try discriminate. auto.
  - destruct (attach_outcome _ _ _ _ _ _ Hattach) as (Hmodel & Hfuel & Hok & Hfail).
    repeat split; try assumption.
    intros Hr. destruct (Hok Hr) as (sess & Hsess & Htrace).
    exists sess. split; [exact Hsess|]. split; [exact Htrace|].
    intros fuel query.
    destruct (process_query_events fuel self' query env' sess Hsess)
      as (evs & Hevs & _). eauto.
Qed.

End ConnectionFacts.

End Orchestration.

(** ** Worked runs *)

Abbreviation mock_process_query :=
  (process_query Mock.json_loads Mock.py_str Mock.list_tools Mock.call_tool Mock.create).
Abbreviation mock_at_turn :=
  (at_turn Mock.json_loads Mock.py_str Mock.list_tools Mock.call_tool Mock.create).
Abbreviation mock_in_turn :=
  (in_turn Mock.json_loads Mock.py_str Mock.list_tools Mock.call_tool Mock.create).
Abbreviation chatty_process_query :=
  (process_query Mock.json_loads Mock.py_str Chatty.list_tools Chatty.call_tool
                 Chatty.create).
Abbreviation chatty_at_turn :=
  (at_turn Mock.json_loads Mock.py_str Chatty.list_tools Chatty.call_tool Chatty.create).

(** The text-only scenario: the answer ["4"] comes back as it is. *)
Lemma text_only_answer_witness :
  fst (mock_process_query 1 Mock.client "2 + 2?" (Mock.fresh Mock.text_only)) = Ok "4".
Proof.
  exact (f_equal fst
           (proj1 (text_only_answer Mock.json_loads Mock.py_str Mock.list_tools
                     Mock.call_tool Mock.create 0 Mock.client "2 + 2?"
                     (Mock.fresh Mock.text_only) tt _ _ _ _ _ _
                     eq_refl eq_refl eq_refl eq_refl eq_refl))).
Defined.

(** With the chatty endpoint the loop is still running after three turns. *)
Lemma loop_exits_on_empty_turn_witness :
  exists loc env,
    chatty_at_turn Mock.client "alerts?" Chatty.fresh 3 = Some (tt, [], loc, env) /\
    chatty_process_query 3 Mock.client "alerts?" Chatty.fresh = (OutOfFuel, env).
Proof.
  do 2 eexists. split; [reflexivity|].
  exact (proj1 (proj2 (proj2 (loop_exits_on_empty_turn Mock.json_loads Mock.py_str
                                Chatty.list_tools Chatty.call_tool Chatty.create
                                Mock.client "alerts?" Chatty.fresh)
                             3 tt [] _ _ eq_refl))).
Defined.

(** The chatty endpoint keeps the loop going for any number of turns. *)
Lemma chatty_never_returns (n : nat) :
  fst (chatty_process_query n Mock.client "alerts?" Chatty.fresh) = OutOfFuel.
Proof.
  assert (Hturns : forall m loc env,
             exists loc' env',
               after_turns Mock.json_loads Mock.py_str Chatty.call_tool Chatty.create
                           m Mock.client tt [] loc env = Some (loc', env')).
  { induction m as [|m IH]; intros loc env.
    - exists loc, env. reflexivity.
    - cbn. apply IH. }
  destruct (Hturns n (initial_locals "alerts?")
                   (logged Chatty.fresh EvListTools tt)) as (loc' & env' & Hafter).
  rewrite (process_query_entry Mock.json_loads Mock.py_str Chatty.list_tools
             Chatty.call_tool Chatty.create n Mock.client "alerts?" Chatty.fresh
             tt [] (logged Chatty.fresh EvListTools tt) eq_refl).
  rewrite (turn_loop_still_running _ _ _ _ _ _ _ _ _ _ _ _ Hafter). reflexivity.
Qed.

(** Two calls in one turn: two invocations, in the order of the calls, before
    the second completion request. *)
Lemma tool_calls_run_in_order_witness :
  exists tools loc env content_text tool_calls loc1 env1 loc' env',
    mock_at_turn Mock.client "add 3 and 4" (Mock.fresh Mock.two_calls) 0
      = Some (tt, tools, loc, env) /\
    ask_model Mock.create Mock.client tools loc env
      = (Ok (content_text, tool_calls, loc1), env1) /\
    mock_at_turn Mock.client "add 3 and 4" (Mock.fresh Mock.two_calls) 1
      = Some (tt, tools, loc', env') /\
    exists outs,
      length outs = 2 /\
      trace env' = trace env1 ++ map invocation_of (combine tool_calls outs).
Proof.
  do 9 eexists. split; [reflexivity|]. split; [reflexivity|]. split; [reflexivity|].
  destruct (proj2 (tool_calls_run_in_order Mock.json_loads Mock.py_str Mock.list_tools
                     Mock.call_tool Mock.create Mock.client "add 3 and 4"
                     (Mock.fresh Mock.two_calls) 0 tt _ _ _ _ _ _ _ eq_refl eq_refl)
                  _ _ eq_refl) as (outs & Hlen & _ & Htrace & _).
  exists outs. split; [exact Hlen | exact Htrace].
Defined.

(** The message for the first call carries its [id], ["call_1"]. *)
Lemma tool_call_id_round_trip_witness :
  exists tool_calls loc env tool_call loc' env',
    mock_in_turn Mock.client "add 3 and 4" (Mock.fresh Mock.two_calls) 0 0
      = Some (tt, tool_calls, loc, env) /\
    nth_error tool_calls 0 = Some tool_call /\
    mock_in_turn Mock.client "add 3 and 4" (Mock.fresh Mock.two_calls) 0 1
      = Some (tt, tool_calls, loc', env') /\
    exists output,
      messages loc' = messages loc ++ [ToolMessage "call_1" "add_numbers" output].
Proof.
  do 6 eexists. split; [reflexivity|]. split; [reflexivity|]. split; [reflexivity|].
  destruct (tool_call_id_round_trip Mock.json_loads Mock.py_str Mock.list_tools
              Mock.call_tool Mock.create Mock.client "add 3 and 4"
              (Mock.fresh Mock.two_calls) 0 0 tt _ _ _ _ _ _ eq_refl eq_refl eq_refl)
    as (output & _ & _ & _ & Hmsgs & _).
  exists output. exact Hmsgs.
Defined.

(** C2, counterexample.  The empty string does not parse as JSON, yet a call
    that carries it does not fail the query: the tool is invoked with the
    empty dictionary and the run returns. *)
Lemma empty_arguments_are_defaulted :
  Mock.json_loads EmptyString = inl "Expecting value: line 1 column 1 (char 0)" /\
  fst (mock_process_query 2 Mock.client "add" (Mock.fresh Mock.blank_arguments))
    = Ok (PyStr.join newline ["[Tool add_numbers called with args {}]"; "0"; "done"]) /\
  filter is_call_tool
    (trace (snd (mock_process_query 2 Mock.client "add"
                   (Mock.fresh Mock.blank_arguments))))
    = [EvCallTool "add_numbers" (PyDict [])].
Proof. repeat split. Qed.

(** The malformed scenario: the second call does not parse, the query fails
    and the run stops where it stood before that call. *)
Lemma malformed_arguments_propagate_witness :
  exists tool_calls loc env tool_call exc,
    mock_in_turn Mock.client "add 3 and 4" (Mock.fresh Mock.malformed) 0 1
      = Some (tt, tool_calls, loc, env) /\
    nth_error tool_calls 1 = Some tool_call /\
    fn_arguments (call_function tool_call) = Some "{not json" /\
    "{not json" <> EmptyString /\
    Mock.json_loads "{not json" = inl exc /\
    0 < 1 /\
    mock_process_query 1 Mock.client "add 3 and 4" (Mock.fresh Mock.malformed)
      = (Exc (parse_error (fn_name (call_function tool_call)) exc), env).
Proof.
  assert (Hnonempty : "{not json" <> EmptyString) by discriminate.
  do 5 eexists. split; [reflexivity|]. split; [reflexivity|]. split; [reflexivity|].
  split; [exact Hnonempty|]. split; [reflexivity|]. split; [apply Nat.lt_0_1|].
  exact (proj1 (malformed_arguments_propagate Mock.json_loads Mock.py_str
                  Mock.list_tools Mock.call_tool Mock.create Mock.client "add 3 and 4"
                  (Mock.fresh Mock.malformed) 0 1 tt _ _ _ _ _ _ 1
                  eq_refl eq_refl eq_refl Hnonempty eq_refl Nat.lt_0_1)).
Defined.

(** C1, counterexample.  The session drops during the only tool call of the
    first turn: the exception leaves [process_query], and no second
    completion request is made. *)
Lemma tool_exception_escapes :
  fst (mock_process_query 2 Mock.client "add 3 and 4" (Mock.fresh Mock.dropped))
    = Exc (Foreign "connection closed") /\
  filter is_call_tool
    (trace (snd (mock_process_query 2 Mock.client "add 3 and 4"
                   (Mock.fresh Mock.dropped))))
    = [EvCallTool "add_numbers" (PyDict [])] /\
  length (filter is_completion
            (trace (snd (mock_process_query 2 Mock.client "add 3 and 4"
                           (Mock.fresh Mock.dropped))))) = 1.
Proof. repeat split. Qed.

(** A result flagged as an error is recorded like any other result. *)
Lemma session_failure_handling_witness :
  exists tool_calls loc env tool_call arguments,
    mock_in_turn Mock.client "add 3 and 4" (Mock.fresh Mock.two_calls) 0 1
      = Some (tt, tool_calls, loc, env) /\
    nth_error tool_calls 1 = Some tool_call /\
    Mock.json_loads (raw_arguments tool_call) = inr arguments /\
    messages (fold_result Mock.py_str loc tool_call arguments
                {| content := Some [Mock.text_item "unknown tool"]; isError := true |})
      = messages loc ++ [ToolMessage "call_2" "add_numbers" "unknown tool"].
Proof.
  do 5 eexists. split; [reflexivity|]. split; [reflexivity|]. split; [reflexivity|].
  exact (proj1 (proj1 (session_failure_handling Mock.json_loads Mock.py_str
                         Mock.list_tools Mock.call_tool Mock.create Mock.client
                         "add 3 and 4" (Mock.fresh Mock.two_calls) 0 1 tt _ _ _ _ _
                         eq_refl eq_refl eq_refl)
                      _ _ eq_refl)).
Defined.

(** C6, counterexample.  Three texts, the first with white space around it
    and the second empty: the code drops the empty one and trims the whole,
    which the wording of the specification does not, even when its result is
    trimmed afterwards. *)
Lemma flatten_drops_and_trims :
  _flatten_tool_content
    (Some [Mock.text_item " 7 "; Mock.text_item EmptyString; Mock.text_item "8"])
    = ("7 " ++ newline ++ "8")%string /\
  spec_flatten [Mock.text_item " 7 "; Mock.text_item EmptyString; Mock.text_item "8"]
    = (" 7 " ++ newline ++ newline ++ "8")%string /\
  _flatten_tool_content
    (Some [Mock.text_item " 7 "; Mock.text_item EmptyString; Mock.text_item "8"])
    <> spec_flatten
         [Mock.text_item " 7 "; Mock.text_item EmptyString; Mock.text_item "8"] /\
  _flatten_tool_content
    (Some [Mock.text_item " 7 "; Mock.text_item EmptyString; Mock.text_item "8"])
    <> PyStr.strip
         (spec_flatten
            [Mock.text_item " 7 "; Mock.text_item EmptyString; Mock.text_item "8"]).
Proof. repeat split; discriminate. Qed.

(** The first call of the two-call scenario: summary, then the output. *)
Lemma tool_output_is_folded_witness :
  exists tool_calls loc env tool_call loc' env',
    mock_in_turn Mock.client "add 3 and 4" (Mock.fresh Mock.two_calls) 0 0
      = Some (tt, tool_calls, loc, env) /\
    nth_error tool_calls 0 = Some tool_call /\
    mock_in_turn Mock.client "add 3 and 4" (Mock.fresh Mock.two_calls) 0 1
      = Some (tt, tool_calls, loc', env') /\
    final_chunks loc' =
      final_chunks loc ++ ["[Tool add_numbers called with args [3, 4]]"; "7"].
Proof.
  do 6 eexists. split; [reflexivity|]. split; [reflexivity|]. split; [reflexivity|].
  destruct (tool_output_is_folded Mock.json_loads Mock.py_str Mock.list_tools
              Mock.call_tool Mock.create Mock.client "add 3 and 4"
              (Mock.fresh Mock.two_calls) 0 0 tt _ _ _ _ _ _ eq_refl eq_refl eq_refl)
    as (arguments & result & Hparse & Hcall & _ & Hchunks & _).
  inversion Hparse. inversion Hcall. subst. exact Hchunks.
Defined.

(** The second call of the two-call scenario has no arguments: the tool is
    invoked with the empty dictionary. *)
Lemma absent_arguments_default_witness :
  exists tool_calls loc env tool_call,
    Mock.json_loads "{}" = inr (PyDict []) /\
    mock_in_turn Mock.client "add 3 and 4" (Mock.fresh Mock.two_calls) 0 1
      = Some (tt, tool_calls, loc, env) /\
    nth_error tool_calls 1 = Some tool_call /\
    fn_arguments (call_function tool_call) = None /\
    exists later,
      trace (snd (mock_process_query 2 Mock.client "add 3 and 4"
                    (Mock.fresh Mock.two_calls)))
      = trace env ++ EvCallTool "add_numbers" (PyDict []) :: later.
Proof.
  do 4 eexists. split; [reflexivity|]. split; [reflexivity|]. split; [reflexivity|].
  split; [reflexivity|].
  exact (proj1 (absent_arguments_default Mock.json_loads Mock.py_str Mock.list_tools
                  Mock.call_tool Mock.create Mock.client "add 3 and 4"
                  (Mock.fresh Mock.two_calls) 0 1 tt _ _ _ _
                  eq_refl eq_refl eq_refl (or_introl eq_refl))
               2 (Nat.lt_0_succ 1)).
Defined.


(** C7, counterexample.  A schema that is a dictionary describing a string is
    not an object schema, yet it is declared unchanged, not replaced by the
    empty-parameter fallback. *)
Lemma non_object_schema_passes_through :
  is_object_schema (inputSchema Mock.echo) = false /\
  decl_parameters (decl_function (declare Mock.echo))
    = PyDict [("type", PyStr "string")] /\
  decl_parameters (decl_function (declare Mock.echo)) <> empty_parameters.
Proof. repeat split. discriminate. Qed.

(** A tool without schema is listed with the empty parameters. *)
Lemma unreadable_schema_still_listed_witness :
  exists decl,
    nth_error (available_tools [Mock.echo; Mock.bare]) 1 = Some decl /\
    decl_name (decl_function decl) = "ping" /\
    decl_parameters (decl_function decl) = empty_parameters.
Proof.
  destruct (proj2 (unreadable_schema_still_listed [Mock.echo; Mock.bare]) 1 Mock.bare
                  eq_refl) as (decl & Hnth & Hname & Hfallback & _).
  exists decl. split; [exact Hnth|]. split; [exact Hname|]. exact (Hfallback eq_refl).
Defined.

(** ** Worked runs of the shell and of the connection *)

Abbreviation mock_chat_loop :=
  (chat_loop Mock.json_loads Mock.py_str Mock.list_tools Mock.call_tool Mock.create).
Abbreviation mock_connect :=
  (connect_to_server Mock.json_loads Mock.py_str Mock.list_tools
                     Mock.getenv_unset Mock.stdio_client Mock.streamablehttp_client
                     Mock.client_session Mock.initialize).
Abbreviation mock_connect_list :=
  (connect_to_server Mock.json_loads Mock.py_str Mock.list_tools
                     Mock.getenv_list Mock.stdio_client Mock.streamablehttp_client
                     Mock.client_session Mock.initialize).

(** After the turn with two calls, the transcript is the query and one
    completed turn. *)
Lemma transcript_well_formed_witness :
  exists tools loc env,
    mock_at_turn Mock.client "add 3 and 4" (Mock.fresh Mock.two_calls) 1
      = Some (tt, tools, loc, env) /\
    well_formed "add 3 and 4" (messages loc).
Proof.
  do 3 eexists. split; [vm_compute; reflexivity|].
  exact (transcript_well_formed Mock.json_loads Mock.py_str Mock.list_tools
           Mock.call_tool Mock.create Mock.client "add 3 and 4"
           (Mock.fresh Mock.two_calls) 1 tt _ _ _ eq_refl).
Defined.

Lemma requests_well_configured_witness :
  exists evs,
    trace (snd (mock_process_query 2 Mock.client "add 3 and 4"
                  (Mock.fresh Mock.two_calls)))
      = EvListTools :: evs /\
    ~ In EvListTools evs.
Proof.
  destruct (requests_well_configured Mock.json_loads Mock.py_str Mock.list_tools
              Mock.call_tool Mock.create 2 Mock.client "add 3 and 4"
              (Mock.fresh Mock.two_calls) tt [Mock.add_numbers] Mock.two_calls
              eq_refl eq_refl) as (evs & Htrace & Hnone & _).
  exists evs. split; [exact Htrace | exact Hnone].
Defined.

Lemma transcript_append_only_witness :
  exists tools loc0 env0 loc1 env1,
    mock_at_turn Mock.client "add 3 and 4" (Mock.fresh Mock.two_calls) 0
      = Some (tt, tools, loc0, env0) /\
    mock_at_turn Mock.client "add 3 and 4" (Mock.fresh Mock.two_calls) 1
      = Some (tt, tools, loc1, env1) /\
    0 <= 1 /\
    exists added chunks,
      messages loc1 = messages loc0 ++ added /\
      final_chunks loc1 = final_chunks loc0 ++ chunks.
Proof.
  do 5 eexists. split; [vm_compute; reflexivity|]. split; [vm_compute; reflexivity|].
  split; [apply Nat.le_0_1|].
  exact (transcript_append_only Mock.json_loads Mock.py_str Mock.list_tools
           Mock.call_tool Mock.create Mock.client "add 3 and 4"
           (Mock.fresh Mock.two_calls) 0 1 tt _ _ _ _ _ eq_refl eq_refl Nat.le_0_1).
Defined.

Lemma one_request_per_turn_witness :
  exists tools loc env,
    mock_at_turn Mock.client "add 3 and 4" (Mock.fresh Mock.two_calls) 1
      = Some (tt, tools, loc, env) /\
    turn_index loc = 2 /\
    length (filter is_completion (trace env)) = 1.
Proof.
  do 3 eexists. split; [vm_compute; reflexivity|].
  destruct (one_request_per_turn Mock.json_loads Mock.py_str Mock.list_tools
              Mock.call_tool Mock.create Mock.client "add 3 and 4"
              (Mock.fresh Mock.two_calls) 1 tt _ _ _ eq_refl) as (Hindex & Hcount & _).
  split; [exact Hindex | exact Hcount].
Defined.

(** The endpoint is down: the query fails with its exception. *)
Lemma failures_before_tools_witness :
  exists tools loc env,
    mock_at_turn Mock.client "2 + 2?" (Mock.fresh Mock.endpoint_down) 0
      = Some (tt, tools, loc, env) /\
    fst (mock_process_query 1 Mock.client "2 + 2?" (Mock.fresh Mock.endpoint_down))
      = Exc (Foreign "503 Service Unavailable").
Proof.
  do 3 eexists. split; [vm_compute; reflexivity|].
  exact (f_equal fst
           (proj1 (proj2 (proj2 (failures_before_tools Mock.json_loads Mock.py_str
                                   Mock.list_tools Mock.call_tool Mock.create
                                   Mock.client "2 + 2?"
                                   (Mock.fresh Mock.endpoint_down)))
                         0 tt _ _ _ 1 eq_refl Nat.lt_0_1)
                  _ _ eq_refl)).
Defined.



Lemma chat_loop_stops_at_quit_witness :
  is_quit (PyStr.strip "  QuIt ") = true /\
  mock_chat_loop 1 Mock.client ["2 + 2?"; "  QuIt "; "3 + 3?"]
                 (Mock.fresh Mock.two_answers)
  = mock_chat_loop 1 Mock.client ["2 + 2?"] (Mock.fresh Mock.two_answers).
Proof.
  split; [vm_compute; reflexivity|].
  exact (chat_loop_stops_at_quit Mock.json_loads Mock.py_str Mock.list_tools
           Mock.call_tool Mock.create 1 Mock.client ["2 + 2?"] "  QuIt " ["3 + 3?"]
           (Mock.fresh Mock.two_answers) eq_refl).
Defined.

Lemma chat_loop_skips_blank_witness :
  PyStr.all_space "   " = true /\
  mock_chat_loop 1 Mock.client ["2 + 2?"; "   "; "3 + 3?"]
                 (Mock.fresh Mock.two_answers)
  = mock_chat_loop 1 Mock.client ["2 + 2?"; "3 + 3?"] (Mock.fresh Mock.two_answers).
Proof.
  split; [vm_compute; reflexivity|].
  exact (chat_loop_skips_blank Mock.json_loads Mock.py_str Mock.list_tools
           Mock.call_tool Mock.create 1 Mock.client ["2 + 2?"] "   " ["3 + 3?"]
           (Mock.fresh Mock.two_answers) eq_refl).
Defined.

Lemma chat_loop_composes_witness :
  Forall (fun line => is_quit (PyStr.strip line) = false) ["2 + 2?"] /\
  fst (mock_chat_loop 1 Mock.client (["2 + 2?"] ++ ["3 + 3?"])
                      (Mock.fresh Mock.two_answers))
  = Ok ([Responded "4"] ++ [Responded "6"]).
Proof.
  assert (H : Forall (fun line => is_quit (PyStr.strip line) = false) ["2 + 2?"])
    by (constructor; [reflexivity | constructor]).
  split; [exact H|].
  exact (f_equal fst
           (chat_loop_composes Mock.json_loads Mock.py_str Mock.list_tools
              Mock.call_tool Mock.create 1 Mock.client ["2 + 2?"] ["3 + 3?"]
              (Mock.fresh Mock.two_answers) H)).
Defined.

Lemma chat_loop_disconnected_witness :
  session Mock.offline = None /\
  mock_chat_loop 1 Mock.offline ["2 + 2?"; " "; "3 + 3?"; "exit"; "4 + 4?"]
                 (Mock.fresh Mock.two_answers)
  = (Ok [Failed (RuntimeError "Not connected to any MCP server.");
         Failed (RuntimeError "Not connected to any MCP server.")],
     Mock.fresh Mock.two_answers).
Proof.
  split; [vm_compute; reflexivity|].
  exact (chat_loop_disconnected Mock.json_loads Mock.py_str Mock.list_tools
           Mock.call_tool Mock.create 1 Mock.offline
           ["2 + 2?"; " "; "3 + 3?"; "exit"; "4 + 4?"]
           (Mock.fresh Mock.two_answers) eq_refl).
Defined.

Lemma chat_loop_per_query_witness :
  exists shown env' evs,
    mock_chat_loop 1 Mock.client ["2 + 2?"; "3 + 3?"] (Mock.fresh Mock.two_answers)
      = (Ok shown, env') /\
    trace env' = evs /\
    length shown = 2 /\
    length (filter is_list_tools evs) = 2.
Proof.
  do 2 eexists.
  destruct (chat_loop_per_query Mock.json_loads Mock.py_str Mock.list_tools
              Mock.call_tool Mock.create 1 Mock.client ["2 + 2?"; "3 + 3?"]
              (Mock.fresh Mock.two_answers) tt _ _ eq_refl eq_refl)
    as (evs & Htrace & Hshown & Hcount & _).
  exists evs. split; [vm_compute; reflexivity|]. split; [exact Htrace|].
  split; [exact Hshown | exact Hcount].
Defined.


Lemma script_target_checked_witness :
  is_http_target "server.txt" = false /\
  mock_connect Mock.offline "server.txt" (Mock.fresh Mock.text_only)
  = (Exc (ValueError "Server script must be a .py or .js file"),
     Mock.offline, Mock.fresh Mock.text_only).
Proof.
  split; [vm_compute; reflexivity|].
  apply (proj1 (script_target_checked Mock.json_loads Mock.py_str Mock.list_tools
                  Mock.getenv_unset Mock.stdio_client Mock.streamablehttp_client
                  Mock.client_session Mock.initialize Mock.offline "server.txt"
                  (Mock.fresh Mock.text_only) eq_refl)).
  - intros front H. apply (f_equal (str_endswith ".py")) in H.
    rewrite (proj2 (str_endswith_spec ".py" (front ++ ".py")) (ex_intro _ front eq_refl))
      in H. discriminate H.
  - intros front H. apply (f_equal (str_endswith ".js")) in H.
    rewrite (proj2 (str_endswith_spec ".js" (front ++ ".js")) (ex_intro _ front eq_refl))
      in H. discriminate H.
Defined.

Lemma http_headers_checked_witness :
  is_http_target "http://localhost:8000/mcp" = true /\
  Mock.getenv_list "MCP_HTTP_HEADERS" = Some "[3, 4]" /\
  mock_connect_list Mock.offline "http://localhost:8000/mcp"
                    (Mock.fresh Mock.text_only)
  = (Exc header_error, Mock.offline, Mock.fresh Mock.text_only).
Proof.
  split; [vm_compute; reflexivity|]. split; [vm_compute; reflexivity|].
  apply (proj2 (proj2 (http_headers_checked Mock.json_loads Mock.py_str
                         Mock.list_tools Mock.getenv_list Mock.stdio_client
                         Mock.streamablehttp_client Mock.client_session
                         Mock.initialize Mock.offline "http://localhost:8000/mcp"
                         (Mock.fresh Mock.text_only) eq_refl))
               "[3, 4]" eq_refl).
  - discriminate.
  - intros entries. discriminate.
Defined.

Lemma connect_outcome_witness :
  exists self' env',
    mock_connect Mock.offline "weather.py" (Mock.fresh Mock.text_only)
      = (Ok tt, self', env') /\
    exists sess, session self' = Some sess /\ trace env' = [EvListTools].
Proof.
  do 2 eexists. split; [vm_compute; reflexivity|].
  destruct (proj1 (proj2 (proj2 (connect_outcome Mock.json_loads Mock.py_str
                                   Mock.list_tools Mock.call_tool Mock.create
                                   Mock.getenv_unset Mock.stdio_client
                                   Mock.streamablehttp_client Mock.client_session
                                   Mock.initialize Mock.offline "weather.py"
                                   (Mock.fresh Mock.text_only) _ _ _ eq_refl)))
                  eq_refl) as (sess & Hsess & Htrace & _).
  exists sess. split; [exact Hsess | exact Htrace].
Defined.
